(** * Stingray: base classes and array utilities

    A shallow embedding of [stingray/utils.py] and [stingray/base.py].

    Conventions of the embedding:

    - [rebin_data] computes in binary64, the format of Python floats
      and of numpy's float64: module [F64] gives the operations, with
      round to nearest even, on the floats of [SpecFloat].  Its
      arguments are a list [x] of Python floats, a sequence [y] of
      floats, which [np.asarray] makes a float64 array, and a float
      [dx_new]; the integers of the spec's example are read as the
      floats of the same value.
    - Elsewhere numbers are exact rationals ([Q]): the values that the
      attributes of an object hold, whose numpy dtype the model does
      not record, and the np.longdouble arithmetic of
      [time_intervals_from_gtis], whose format is the platform's.
      The claims and further properties stated there do not depend
      on the arithmetic, or give the formula the code evaluates, or are
      about inputs on which the code computes without rounding; a lemma
      that holds in exact arithmetic only says so.
    - A raised exception is the [Raise] branch of [result]; code that
      mutates objects threads the object store explicitly.
    - numpy arrays are immutable values: every operation of the code
      under study that produces an array allocates a new one. *)

From Stdlib Require Import String Ascii.
From Stdlib Require Import QArith Qround ZArith List Bool Lia Lqa.
From Stdlib Require Import SpecFloat.
Import ListNotations.

Open Scope Q_scope.

(** ** Exceptions and results *)

Inductive exn : Type :=
| AssertionError
| AttributeError
| IndexError
| TypeError
| ValueError
| UnboundLocalError
| KeyError
| ReferenceError
| ZeroDivisionError
| OverflowError
| UnrecognizedMethod.

Inductive result (A : Type) : Type :=
| Ok (a : A)
| Raise (e : exn).

Arguments Ok {A} a.
Arguments Raise {A} e.

Definition bind {A B : Type} (m : result A) (k : A -> result B) : result B :=
  match m with
  | Ok a => k a
  | Raise e => Raise e
  end.

Declare Scope py_scope.
Delimit Scope py_scope with py.
Notation "x <- m ;; k" := (bind m (fun x => k))
  (at level 61, m at next level, right associativity) : py_scope.
Notation "' p <- m ;; k" := (bind m (fun p => k))
  (at level 61, p pattern, m at next level, right associativity) : py_scope.
Open Scope py_scope.

Fixpoint mapM {A B : Type} (f : A -> result B) (l : list A) : result (list B) :=
  match l with
  | [] => Ok []
  | a :: t => b <- f a ;; bs <- mapM f t ;; Ok (b :: bs)
  end.

Definition py_assert (b : bool) : result unit :=
  if b then Ok tt else Raise AssertionError.

(** ** Python and numpy primitives *)

Module Py.

Definition Qltb (a b : Q) : bool := negb (Qle_bool b a).

Definition nat2Q (n : nat) : Q := inject_Z (Z.of_nat n).

(** [l[z]] with Python's negative indices. *)
Definition index {A : Type} (l : list A) (z : Z) : result A :=
  let n := Z.of_nat (length l) in
  let z' := if (z <? 0)%Z then (z + n)%Z else z in
  if ((0 <=? z') && (z' <? n))%Z%bool then
    match nth_error l (Z.to_nat z') with
    | Some a => Ok a
    | None => Raise IndexError
    end
  else Raise IndexError.

(** Bound of a slice: negative bounds count from the end, and the
    result is clipped to the sequence. *)
Definition clip (n : nat) (z : Z) : nat :=
  let z' := if (z <? 0)%Z then (z + Z.of_nat n)%Z else z in
  Nat.min n (Z.to_nat z').

(** [l[a:b]]. *)
Definition slice {A : Type} (l : list A) (a b : Z) : list A :=
  let lo := clip (length l) a in
  let hi := clip (length l) b in
  firstn (hi - lo) (skipn lo l).

(** [np.arange(start, stop, step)] in exact arithmetic, as used for
    the np.longdouble grid of [time_intervals_from_gtis]. *)
Definition arange (start stop step : Q) : result (list Q) :=
  if Qeq_bool step 0 then Raise ZeroDivisionError
  else
    let len := Z.to_nat (Qceiling ((stop - start) / step)) in
    Ok (map (fun k => start + nat2Q k * step) (seq 0 len)).

(** [s in l] for a list of strings. *)
Definition str_in (s : string) (l : list string) : bool :=
  existsb (String.eqb s) l.

End Py.

(** ** Binary64 *)

Module F64.

(** Python's [float] and numpy's [float64]: IEEE 754 binary64, every
    operation rounded to nearest, ties to even. *)
Definition float : Type := spec_float.

Definition prec : Z := 53.
Definition emax : Z := 1024.

Definition add (a b : float) : float := SFadd prec emax a b.
Definition sub (a b : float) : float := SFsub prec emax a b.
Definition mul (a b : float) : float := SFmul prec emax a b.
Definition div (a b : float) : float := SFdiv prec emax a b.

Definition ltb (a b : float) : bool := SFltb a b.
Definition leb (a b : float) : bool := SFleb a b.
Definition eqb (a b : float) : bool := SFeqb a b.

(** The float nearest to an integer: [float(z)], and what an [int]
    becomes next to a float. *)
Definition of_Z (z : Z) : float := binary_normalize prec emax z 0 false.

Arguments of_Z z%_Z.

Definition of_nat (n : nat) : float := of_Z (Z.of_nat n).

(** The float nearest to the fraction [n/d], for [n] and [d] below
    [2^53] in size: [ratio 1 10] is the float written [0.1]. *)
Definition ratio (n d : Z) : float := div (of_Z n) (of_Z d).

Arguments ratio (n d)%_Z.

(** The integer part of a finite float, towards zero. *)
Definition truncate (s : bool) (m : positive) (e : Z) : Z :=
  cond_Zopp s (Z.shiftl (Zpos m) e).

(** [int(f)]. *)
Definition int (f : float) : result Z :=
  match f with
  | S754_zero _ => Ok 0%Z
  | S754_finite s m e => Ok (truncate s m e)
  | S754_infinity _ => Raise OverflowError
  | S754_nan => Raise ValueError
  end.

(** [a / b] on Python floats. *)
Definition truediv (a b : float) : result float :=
  if eqb b (of_Z 0) then Raise ZeroDivisionError else Ok (div a b).

(** [v % 1] on Python floats: [fmod(v, 1.0)], which is exact, moved
    into [0, 1] when it is negative. *)
Definition mod1 (v : float) : float :=
  match v with
  | S754_zero _ => S754_zero false
  | S754_finite s m e =>
      let r := sub v (of_Z (truncate s m e)) in
      if eqb r (of_Z 0) then S754_zero false
      else if ltb r (of_Z 0) then add r (of_Z 1)
      else r
  | S754_infinity _ | S754_nan => S754_nan
  end.

(** The builtin [sum]: from the integer 0, left to right. *)
Definition sum (l : list float) : float := fold_left add l (of_Z 0).

(** [ceil(f)] for a finite float. *)
Definition ceil (f : float) : option Z :=
  match f with
  | S754_zero _ => Some 0%Z
  | S754_finite s m e =>
      let t := Z.shiftl (Zpos m) e in
      if s then Some (- t)%Z
      else if (Z.shiftl t (- e) =? Zpos m)%Z then Some t
      else Some (t + 1)%Z
  | S754_infinity _ | S754_nan => None
  end.

(** [np.arange(start, stop, step)] for integers [start] and [stop]
    and a Python float [step].  The length is the ceiling of the
    rounded quotient [(stop - start) / step]; the first two entries are
    [start] and [start + step], and entry [i] is [start + i * delta]
    for the difference [delta] of the first two. *)
Definition arange (start stop : Z) (step : float) : result (list float) :=
  value <- truediv (of_Z (stop - start)) step ;;
  match value with
  | S754_nan => Raise ValueError
  | _ =>
      match ceil value with
      | Some len =>
          if ((- 2 ^ 63 <=? len) && (len <=? 2 ^ 63 - 1))%Z then
            let first := of_Z start in
            let next := add (of_Z start) step in
            let delta := sub next first in
            Ok (map (fun i =>
                       match i with
                       | O => first
                       | S O => next
                       | _ => add first (mul (of_nat i) delta)
                       end) (seq 0 (Z.to_nat len)))
          else Raise OverflowError
      | None => Raise OverflowError
      end
  end.

Arguments arange (start stop)%_Z step.

End F64.

(** ** utils.py *)

Module Utils.

(** One pass of the loop body of [rebin_data]: the value appended to
    [output] for the loop variable [i]. *)
Definition rebin_total (x y : list F64.float) (step_size i : F64.float)
  : result F64.float :=
  let total := F64.of_Z 0 in
  int_i <- F64.int i ;;
  let prev_frac := F64.sub (F64.of_Z (int_i + 1)) i in
  let prev_bin := int_i in
  y_prev <- Py.index y prev_bin ;;
  let total := F64.add total (F64.mul prev_frac y_prev) in
  total <-
    (if F64.ltb (F64.add i step_size) (F64.of_nat (length x)) then
       whole <- F64.int (F64.add i step_size) ;;
       let next_frac := F64.sub (F64.add i step_size) (F64.of_Z whole) in
       next_bin <- F64.int (F64.add i step_size) ;;
       y_next <- Py.index y next_bin ;;
       Ok (F64.add total (F64.mul next_frac y_next))
     else Ok total) ;;
  lo <- F64.int (F64.add i (F64.of_Z 1)) ;;
  hi <- F64.int (F64.add i step_size) ;;
  Ok (F64.add total (F64.sum (Py.slice y lo hi))).

Definition mean_methods : list string :=
  ["mean"; "avg"; "average"; "arithmetic mean"]%string.

(** [x[1] - x[0]], [dx_new / dx_old] and [tseg / dx_new] are
    operations of Python floats, the ones that raise ZeroDivisionError;
    the loop variable and the arrays are float64. *)
Definition rebin_data (x y : list F64.float) (dx_new : F64.float) (method : string)
  : result (list F64.float * list F64.float * F64.float) :=
  x1 <- Py.index x 1 ;;
  x0 <- Py.index x 0 ;;
  let dx_old := F64.sub x1 x0 in
  _ <- py_assert (F64.leb dx_old dx_new) ;;
  step_size <- F64.truediv dx_new dx_old ;;
  grid <- F64.arange 0 (Z.of_nat (length y)) step_size ;;
  output <- mapM (rebin_total x y step_size) grid ;;
  ybin <-
    (if Py.str_in method mean_methods then
       Ok (map (fun t => F64.div t step_size) output)
     else if String.eqb method "sum" then Ok output
     else Raise UnrecognizedMethod) ;;
  x_last <- Py.index x (-1) ;;
  let tseg := F64.add (F64.sub x_last x0) dx_old in
  ratio <- F64.truediv tseg dx_new ;;
  let ybin :=
    if F64.ltb (F64.of_Z 0) (F64.mod1 ratio) then removelast ybin else ybin in
  let xbin :=
    map (fun k =>
           F64.add (F64.sub (F64.add (F64.mul (F64.of_nat k) dx_new) x0) dx_old)
             dx_new)
      (seq 0 (length ybin)) in
  Ok (xbin, ybin, step_size).

(** The loop of [time_intervals_from_gtis].  The GTIs are rows
    [(start, stop)]; the differences and the grid are exact here, where
    the code rounds them to float64 and np.longdouble. *)
Fixpoint gti_start_times (gtis : list (Q * Q)) (chunk_length : Q)
  (spectrum_start_times : list Q) : result (list Q) :=
  match gtis with
  | [] => Ok spectrum_start_times
  | g :: rest =>
      if Py.Qltb (snd g - fst g) chunk_length then
        gti_start_times rest chunk_length spectrum_start_times
      else
        newtimes <- Py.arange (fst g) (snd g - chunk_length) chunk_length ;;
        gti_start_times rest chunk_length (spectrum_start_times ++ newtimes)
  end.

Definition time_intervals_from_gtis (gtis : list (Q * Q)) (chunk_length : Q)
  : result (list Q * list Q) :=
  spectrum_start_times <- gti_start_times gtis chunk_length [] ;;
  _ <- py_assert (0 <? length spectrum_start_times)%nat ;;
  Ok (spectrum_start_times, map (fun t => t + chunk_length) spectrum_start_times).

(** [np.diff] of a boolean array: where neighbours differ. *)
Fixpoint diff (l : list bool) : list bool :=
  match l with
  | a :: t =>
      match t with
      | b :: _ => xorb b a :: diff t
      | [] => []
      end
  | [] => []
  end.

(** [l.nonzero()], counting positions from [i]. *)
Fixpoint nonzero_from (i : nat) (l : list bool) : list nat :=
  match l with
  | [] => []
  | b :: t => if b then i :: nonzero_from (S i) t else nonzero_from (S i) t
  end.

(** [idx.shape = (-1, 2)]: the entries taken two by two. *)
Fixpoint reshape_pairs (idx : list nat) : result (list (nat * nat)) :=
  match idx with
  | [] => Ok []
  | a :: t =>
      match t with
      | b :: r => rows <- reshape_pairs r ;; Ok ((a, b) :: rows)
      | [] => Raise ValueError
      end
  end.

Definition contiguous_regions (condition : list bool) : result (list (nat * nat)) :=
  let diff := diff condition in
  let idx := nonzero_from 0 diff in
  let idx := map S idx in
  first <- Py.index condition 0 ;;
  let idx := if first then 0%nat :: idx else idx in
  last <- Py.index condition (-1) ;;
  let idx := if last then idx ++ [List.length condition] else idx in
  reshape_pairs idx.

(** [i in array2] for numbers. *)
Definition contains (array2 : list Q) (i : Q) : bool :=
  existsb (fun j => Qeq_bool i j) array2.

(** [None] of Python is [None] here. *)
Definition look_for_array_in_array (array1 array2 : list Q) : option Q :=
  find (contains array2) array1.

(** What [order_list_of_arrays] tells apart: an object with [items],
    another iterable, anything else. *)
Inductive arrays : Type :=
| DictOf (d : list (string * list Q))
| ListOf (l : list (list Q))
| NotIterable.

(** [value[order]] for an array of integer indices. *)
Definition take (value : list Q) (order : list Z) : result (list Q) :=
  mapM (Py.index value) order.

Definition order_list_of_arrays (data : arrays) (order : list Z)
  : result (option arrays) :=
  match data with
  | DictOf d =>
      d' <- mapM (fun kv => v <- take (snd kv) order ;; Ok (fst kv, v)) d ;;
      Ok (Some (DictOf d'))
  | ListOf l =>
      l' <- mapM (fun i => take i order) l ;;
      Ok (Some (ListOf l'))
  | NotIterable => Ok None
  end.

End Utils.

(** ** Strings *)

Module Str.

Definition startswith (s p : string) : bool := String.prefix p s.

Definition endswith (s p : string) : bool :=
  (String.length p <=? String.length s)%nat
  && String.eqb (substring (String.length s - String.length p) (String.length p) s) p.

(** [s.replace(old, "")] for a non-empty [old]: occurrences are
    removed left to right without overlap.  [skip] counts the
    characters of a matched occurrence still to be dropped. *)
Fixpoint remove_from (old : string) (skip : nat) (s : string) : string :=
  match s with
  | EmptyString => EmptyString
  | String c t =>
      match skip with
      | S k => remove_from old k t
      | O =>
          if String.prefix old s then remove_from old (String.length old - 1) t
          else String c (remove_from old 0 t)
      end
  end.

Definition remove_all (old s : string) : string := remove_from old 0 s.

(** [s.lower()] on ASCII letters. *)
Definition lower_char (c : ascii) : ascii :=
  let n := nat_of_ascii c in
  if ((65 <=? n) && (n <=? 90))%nat then ascii_of_nat (n + 32) else c.

Fixpoint lower (s : string) : string :=
  match s with
  | EmptyString => EmptyString
  | String c t => String (lower_char c) (lower t)
  end.

(** [sub in s]. *)
Fixpoint contains (sub s : string) : bool :=
  String.prefix sub s
  || match s with
     | EmptyString => false
     | String _ t => contains sub t
     end.

Fixpoint insert_sorted (s : string) (l : list string) : list string :=
  match l with
  | [] => [s]
  | t :: r =>
      if String.eqb s t then l
      else if String.ltb s t then s :: l
      else t :: insert_sorted s r
  end.

(** [sorted(set(l))]. *)
Definition sort_unique (l : list string) : list string :=
  fold_right insert_sorted [] l.

End Str.

(** ** Tables of columns (the part of [astropy.table.Table] used by
    [read] and [write]) *)

Module Table.

Definition complex : Type := (Q * Q)%type.

Definition cadd (a b : complex) : complex := (fst a + fst b, snd a + snd b).
Definition cmul (a b : complex) : complex :=
  (fst a * fst b - snd a * snd b, fst a * snd b + snd a * fst b).
Definition of_real (q : Q) : complex := (q, 0).
Definition ceq (a b : complex) : Prop := fst a == fst b /\ snd a == snd b.

(** A column is an array of dtype float or of dtype complex. *)
Inductive column : Type :=
| Real (l : list Q)
| Cplx (l : list complex).

(** Columns in table order; names are unique. *)
Definition table : Type := list (string * column).

Definition colnames (ts : table) : list string := map fst ts.

Fixpoint lookup (ts : table) (name : string) : option column :=
  match ts with
  | [] => None
  | (n, c) :: r => if String.eqb n name then Some c else lookup r name
  end.

(** [ts[name] = c]: an existing column keeps its place. *)
Fixpoint set_column (ts : table) (name : string) (c : column) : table :=
  match ts with
  | [] => [(name, c)]
  | (n, c') :: r =>
      if String.eqb n name then (n, c) :: r else (n, c') :: set_column r name c
  end.

Definition remove_column (ts : table) (name : string) : table :=
  filter (fun nc => negb (String.eqb (fst nc) name)) ts.

Definition as_complex (c : column) : list complex :=
  match c with
  | Real l => map of_real l
  | Cplx l => l
  end.

(** [np.iscomplex(c[0])]: the first element has a non-zero imaginary
    part. *)
Definition first_iscomplex (c : column) : result bool :=
  match c with
  | Real l => _ <- Py.index l 0 ;; Ok false
  | Cplx l => z <- Py.index l 0 ;; Ok (negb (Qeq_bool (snd z) 0))
  end.

Definition real_part (c : column) : column := Real (map fst (as_complex c)).
Definition imag_part (c : column) : column := Real (map snd (as_complex c)).

(** [c * 1j] and [c + 0.0j]. *)
Definition times_1j (c : column) : column :=
  Cplx (map (fun z => cmul z (0, 1)) (as_complex c)).
Definition plus_0j (c : column) : column :=
  Cplx (map (fun z => cadd z (0, 0)) (as_complex c)).

Fixpoint zip_add (a b : list complex) : list complex :=
  match a, b with
  | x :: a', y :: b' => cadd x y :: zip_add a' b'
  | _, _ => []
  end.

(** [old += new] on columns: the sum of a float column and a complex
    one cannot be stored in place. *)
Definition iadd (old new : column) : result column :=
  match old, new with
  | Cplx a, _ =>
      let b := as_complex new in
      if (List.length a =? List.length b)%nat then Ok (Cplx (zip_add a b))
      else Raise ValueError
  | Real a, Real b =>
      if (List.length a =? List.length b)%nat
      then Ok (Real (map (fun p => fst p + snd p) (combine a b)))
      else Raise ValueError
  | Real _, Cplx _ => Raise TypeError
  end.

Definition get (ts : table) (name : string) : result column :=
  match lookup ts name with
  | Some c => Ok c
  | None => Raise KeyError
  end.

(** The loop of [StingrayObject.write] over the column names taken
    before the loop. *)
Fixpoint write_loop (cols : list string) (ts : table) : result table :=
  match cols with
  | [] => Ok ts
  | col :: rest =>
      c <- get ts col ;;
      is_cplx <- first_iscomplex c ;;
      if is_cplx then
        let ts := set_column ts (col ++ ".real") (real_part c) in
        let ts := set_column ts (col ++ ".imag") (imag_part c) in
        write_loop rest (remove_column ts col)
      else write_loop rest ts
  end.

(** The table handed to the backend by [write] for [fmt=None] or an
    ascii format. *)
Definition write_columns (ts : table) : result table :=
  write_loop (colnames ts) ts.

(** The loop of [StingrayObject.read].  [is_imag] is the local
    variable of that name: [None] while it is unbound.  It is only
    assigned when [col.endswith(".real")] is false. *)
Fixpoint read_loop (cols : list string) (is_imag : option bool) (ts : table)
  : result table :=
  match cols with
  | [] => Ok ts
  | col :: rest =>
      let is_real := Str.endswith col ".real" in
      let is_imag := if is_real then is_imag else Some (Str.endswith col ".imag") in
      if negb (is_real || match is_imag with Some b => b | None => false end)
      then read_loop rest is_imag ts
      else
        new_value <- get ts col ;;
        new_value <-
          match is_imag with
          | None => Raise UnboundLocalError
          | Some true => Ok (times_1j new_value)
          | Some false => Ok new_value
          end ;;
        let new_value := plus_0j new_value in
        let col_strip := Str.remove_all ".imag" (Str.remove_all ".real" col) in
        ts <-
          (if Py.str_in col_strip (colnames ts) then
             old <- get ts col_strip ;;
             sum <- iadd old new_value ;;
             Ok (set_column ts col_strip sum)
           else Ok (set_column ts col_strip new_value)) ;;
        read_loop rest is_imag (remove_column ts col)
  end.

(** The table built by [read] from what the backend returns. *)
Definition read_columns (ts : table) : result table :=
  read_loop (colnames ts) None ts.

(** What [write] hands over: the pickled object, or a table and the
    format name given to the table backend. *)
Inductive stored : Type :=
| Pickled
| Tabular (fmt : option string) (ts : table).

(** [fmt is None or "ascii" in fmt]. *)
Definition splits_complex (fmt : option string) : bool :=
  match fmt with
  | None => true
  | Some f => Str.contains "ascii" f
  end.

(** [write], from the table that [to_astropy_table] has built. *)
Definition write (ts : table) (fmt : option string) : result stored :=
  let pickle := match fmt with
                | Some f => String.eqb (Str.lower f) "pickle"
                | None => false
                end in
  if pickle then Ok Pickled
  else
    let fmt := match fmt with
               | Some f => if String.eqb (Str.lower f) "ascii"
                           then Some "ascii.ecsv"%string else Some f
               | None => None
               end in
    ts <- (if splits_complex fmt then write_columns ts else Ok ts) ;;
    Ok (Tabular fmt ts).

(** [read], up to the table given to [from_astropy_table], from the
    table [Table.read] returns for a format other than pickle. *)
Definition read (ts : table) (fmt : option string) : result table :=
  let fmt := match fmt with
             | Some f => if String.eqb (Str.lower f) "ascii"
                         then Some "ascii.ecsv"%string else Some f
             | None => None
             end in
  if splits_complex fmt then read_columns ts else Ok ts.

Definition column_eq (a b : column) : Prop :=
  match a, b with
  | Real l, Real m => Forall2 Qeq l m
  | Cplx l, Cplx m => Forall2 ceq l m
  | _, _ => False
  end.

(** The same column names with equal columns, in any order. *)
Definition table_eq (s t : table) : Prop :=
  Forall (fun nc => exists c, lookup t (fst nc) = Some c /\ column_eq (snd nc) c) s
  /\ Forall (fun nc => lookup s (fst nc) <> None) t.

End Table.

(** ** Values held by the attributes of an object *)

Module Val.

Inductive value : Type :=
| VNone
| VNum (q : Q)                (* a Python or numpy scalar *)
| VStr (s : string)
| VList (l : list Q)          (* a Python list (or tuple) of numbers *)
| VArr0 (q : Q)               (* numpy.ndarray of shape () *)
| VArr (a : list Q)           (* numpy.ndarray of shape (n,) *)
| VArr2 (rows : list (Q * Q)) (* numpy.ndarray of shape (n, 2): a GTI list *)
| VSeries                     (* another StingrayObject *)
| VCallable                   (* a method, a function or a type *)
| VDict.                      (* a dict, as __dict__ *)

(** [isinstance(v, Iterable)]. *)
Definition iterable (v : value) : bool :=
  match v with
  | VStr _ | VList _ | VArr0 _ | VArr _ | VArr2 _ | VDict => true
  | VNone | VNum _ | VSeries | VCallable => false
  end.

(** [np.shape(v)]. *)
Definition shape (v : value) : list nat :=
  match v with
  | VList l | VArr l => [List.length l]
  | VArr2 rows => [List.length rows; 2%nat]
  | _ => []
  end.

Definition shape_eqb (a b : list nat) : bool :=
  if list_eq_dec Nat.eq_dec a b then true else false.

Definition callable (v : value) : bool :=
  match v with VCallable => true | _ => false end.

(** [hasattr(v, "meta_attrs")]. *)
Definition has_meta_attrs (v : value) : bool :=
  match v with VSeries => true | _ => false end.

Definition is_none (v : value) : bool :=
  match v with VNone => true | _ => false end.

Fixpoint select {A : Type} (mask : list bool) (l : list A) : list A :=
  match mask, l with
  | b :: m, a :: t => if b then a :: select m t else select m t
  | _, _ => []
  end.

(** [v[mask]] for a list [mask] of booleans.  Only numpy arrays accept
    such an index.  They read the empty list as an empty array of
    integer indices, which selects nothing, and any other list as a
    boolean mask, which has to be as long as the array. *)
Definition getitem_mask (v : value) (mask : list bool) : result value :=
  match v with
  | VArr a =>
      match mask with
      | [] => Ok (VArr [])
      | _ :: _ =>
          if (List.length mask =? List.length a)%nat then Ok (VArr (select mask a))
          else Raise IndexError
      end
  | VArr2 rows =>
      match mask with
      | [] => Ok (VArr2 [])
      | _ :: _ =>
          if (List.length mask =? List.length rows)%nat
          then Ok (VArr2 (select mask rows))
          else Raise IndexError
      end
  | VArr0 _ => Raise IndexError
  | VNone | VNum _ | VStr _ | VList _ | VSeries | VCallable | VDict => Raise TypeError
  end.

(** Numeric arrays up to their shape. *)
Inductive numeric : Type :=
| N0 (q : Q)
| N1 (l : list Q)
| N2 (rows : list (Q * Q)).

(** The numeric content of [np.asarray(v)], when it has one. *)
Definition asarray (v : value) : option numeric :=
  match v with
  | VNum q | VArr0 q => Some (N0 q)
  | VList l | VArr l => Some (N1 l)
  | VArr2 rows => Some (N2 rows)
  | VNone | VStr _ | VSeries | VCallable | VDict => None
  end.

(** The result of a numpy operation: one on shape () gives a scalar. *)
Definition of_numeric (n : numeric) : value :=
  match n with
  | N0 q => VNum q
  | N1 l => VArr l
  | N2 rows => VArr2 rows
  end.

Definition add_row (r s : Q * Q) : Q * Q := (fst r + fst s, snd r + snd s).

(** The rows of an (n, 2) array with [s] added to each entry. *)
Definition shifted_rows (s : Q) (g : list (Q * Q)) : list (Q * Q) :=
  map (fun r => add_row r (s, s)) g.

(** Elementwise sum of two sequences of one length, where a
    sequence of length 1 is stretched. *)
Definition broadcast {A : Type} (f : A -> A -> A) (a b : list A) : result (list A) :=
  if (List.length a =? List.length b)%nat
  then Ok (map (fun p => f (fst p) (snd p)) (combine a b))
  else
    match a, b with
    | [x], _ => Ok (map (f x) b)
    | _, [y] => Ok (map (fun x => f x y) a)
    | _, _ => Raise ValueError
    end.

(** A row vector against the two columns of an (n, 2) array. *)
Definition as_row (l : list Q) : result (Q * Q) :=
  match l with
  | [x] => Ok (x, x)
  | [x; y] => Ok (x, y)
  | _ => Raise ValueError
  end.

(** [a + b] on numpy arrays, with broadcasting. *)
Definition add_numeric (a b : numeric) : result numeric :=
  match a, b with
  | N0 x, N0 y => Ok (N0 (x + y))
  | N0 x, N1 l => Ok (N1 (map (fun v => x + v) l))
  | N1 l, N0 y => Ok (N1 (map (fun v => v + y) l))
  | N0 x, N2 r => Ok (N2 (map (add_row (x, x)) r))
  | N2 r, N0 y => Ok (N2 (map (fun v => add_row v (y, y)) r))
  | N1 l, N1 m => r <- broadcast Qplus l m ;; Ok (N1 r)
  | N1 l, N2 r => row <- as_row l ;; Ok (N2 (map (add_row row) r))
  | N2 r, N1 l => row <- as_row l ;; Ok (N2 (map (fun v => add_row v row) r))
  | N2 r, N2 s => t <- broadcast add_row r s ;; Ok (N2 t)
  end.

(** [np.asarray(v) + w]. *)
Definition asarray_add (v w : value) : result value :=
  match asarray v, asarray w with
  | Some a, Some b => r <- add_numeric a b ;; Ok (of_numeric r)
  | _, _ => Raise TypeError
  end.

(** [(v - q) * k] on Python objects, for numbers [q] and [k]: lists
    and the other non-numeric values do not support it. *)
Definition sub_mul (v : value) (q k : Q) : result value :=
  match v with
  | VNum m | VArr0 m => Ok (VNum ((m - q) * k))
  | VArr a => Ok (VArr (map (fun m => (m - q) * k) a))
  | VArr2 r => Ok (VArr2 (map (fun g => ((fst g - q) * k, (snd g - q) * k)) r))
  | VNone | VStr _ | VList _ | VSeries | VCallable | VDict => Raise TypeError
  end.

(** [v.size] for the arrays of the model. *)
Definition size (v : value) : result nat :=
  match v with
  | VArr0 _ => Ok 1%nat
  | VArr a => Ok (List.length a)
  | VArr2 r => Ok (2 * List.length r)%nat
  | _ => Raise AttributeError
  end.

End Val.

(** ** base.py: objects, attribute reflection and time series *)

Module Base.

Import Val.

(** The [__dict__] of an instance, in insertion order. *)
Definition instance : Type := list (string * value).

Definition method_names : list string :=
  [ "array_attrs"; "meta_attrs"; "get_meta_dict"; "to_astropy_table";
    "from_astropy_table"; "to_xarray"; "from_xarray"; "to_pandas";
    "from_pandas"; "read"; "write"; "apply_mask"; "apply_gtis";
    "split_by_gti"; "to_astropy_timeseries"; "from_astropy_timeseries";
    "change_mjdref"; "shift";
    "__class__"; "__delattr__"; "__dir__"; "__eq__"; "__format__"; "__ge__";
    "__getattribute__"; "__getstate__"; "__gt__"; "__hash__"; "__init__";
    "__init_subclass__"; "__le__"; "__lt__"; "__ne__"; "__new__";
    "__reduce__"; "__reduce_ex__"; "__repr__"; "__setattr__"; "__sizeof__";
    "__str__"; "__subclasshook__" ]%string.

(** What the class [StingrayTimeseries] and its bases contribute to
    every instance. *)
Definition class_attrs : list (string * value) :=
  [ ("main_array_attr", VStr "time"); ("__dict__", VDict); ("__doc__", VNone);
    ("__module__", VStr "stingray.base"); ("__weakref__", VNone) ]%string
  ++ map (fun m => (m, VCallable)) method_names.

Fixpoint assoc (l : list (string * value)) (name : string) : option value :=
  match l with
  | [] => None
  | (n, v) :: r => if String.eqb n name then Some v else assoc r name
  end.

Definition lookup (o : instance) (name : string) : option value :=
  match assoc o name with
  | Some v => Some v
  | None => assoc class_attrs name
  end.

Definition getattr (o : instance) (name : string) : result value :=
  match lookup o name with
  | Some v => Ok v
  | None => Raise AttributeError
  end.

Definition hasattr (o : instance) (name : string) : bool :=
  match lookup o name with Some _ => true | None => false end.

Fixpoint setattr (o : instance) (name : string) (v : value) : instance :=
  match o with
  | [] => [(name, v)]
  | (n, w) :: r =>
      if String.eqb n name then (n, v) :: r else (n, w) :: setattr r name v
  end.

(** Agreement of two objects on a list of attribute names. *)
Definition same_attrs (names : list string) (a b : instance) : Prop :=
  Forall (fun n => lookup a n = lookup b n) names.

(** The attribute [n] of [o] is a numpy array as long as [t]. *)
Definition is_array (o : instance) (t : list Q) (n : string) : Prop :=
  exists a, lookup o n = Some (VArr a) /\ List.length a = List.length t.

(** [dir(self)]. *)
Definition dir (o : instance) : list string :=
  Str.sort_unique (map fst o ++ map fst class_attrs).

Definition array_attrs (o : instance) : result (list string) :=
  name <- getattr o "main_array_attr" ;;
  main_attr <- match name with
               | VStr s => getattr o s
               | _ => Raise TypeError
               end ;;
  if is_none main_attr then Ok []
  else
    Ok (filter
          (fun attr =>
             match lookup o attr with
             | Some v => iterable v && shape_eqb (shape v) (shape main_attr)
             | None => false
             end)
          (dir o)).

Definition meta_attrs (o : instance) : result (list string) :=
  array_attrs <- array_attrs o ;;
  Ok (filter
        (fun attr =>
           negb (Py.str_in attr array_attrs)
           && negb (Str.startswith attr "_")
           && match lookup o attr with
              | Some attr_value =>
                  negb (callable attr_value) && negb (has_meta_attrs attr_value)
              | None => false
              end)
        (dir o)).

(** *** interpret_times *)

(** A scalar or a one-dimensional array of numbers. *)
Inductive nd : Type :=
| Scalar (q : Q)
| Array (l : list Q).

Definition nd_value (x : nd) : value :=
  match x with
  | Scalar q => VNum q
  | Array l => VArr l
  end.

(** The inputs [interpret_times] tells apart.  [TimeDelta] and
    [Quantity] carry their value in seconds, [Time] its MJD. *)
Inductive TTime : Type :=
| TimeDelta (seconds : nd)
| Time (mjd : nd)
| Quantity (seconds : nd)
| PyList (l : list Q)
| NdArray (a : list Q)
| Number (q : Q)
| Unrecognized.

Definition interpret_times (time : TTime) (mjdref : Q) : result (value * Q) :=
  match time with
  | TimeDelta seconds => Ok (nd_value seconds, mjdref)
  | Time mjds =>
      mjdref <-
        (if Qeq_bool mjdref 0 then
           match mjds with
           | Array l =>
               if forallb (fun m => Py.Qltb 10000 m) l then Py.index l 0 else Ok mjdref
           | Scalar m =>
               if Py.Qltb 10000 m then Ok m else Ok mjdref
           end
         else Ok mjdref) ;;
      let out_times :=
        match mjds with
        | Array l => VArr (map (fun m => (m - mjdref) * 86400) l)
        | Scalar m => VNum ((m - mjdref) * 86400)
        end in
      Ok (out_times, mjdref)
  | Quantity seconds => Ok (nd_value seconds, mjdref)
  | PyList l => Ok (VList l, mjdref)
  | NdArray a => Ok (VArr a, mjdref)
  | Number q => Ok (VNum q, mjdref)
  | Unrecognized => Raise ValueError
  end.

(** *** StingrayTimeseries.__init__ *)

Definition opt_str (s : option string) : value :=
  match s with Some s => VStr s | None => VNone end.

(** [np.asarray(v)] for a numeric [v]. *)
Definition ndarray (v : value) : result value :=
  match asarray v with
  | Some (N0 q) => Ok (VArr0 q)
  | Some (N1 l) => Ok (VArr l)
  | Some (N2 r) => Ok (VArr2 r)
  | None => Raise TypeError
  end.

Fixpoint set_array_attrs (self : instance) (array_attrs : list (string * list Q))
  : result instance :=
  match array_attrs with
  | [] => Ok self
  | (kw, l) :: rest =>
      let new_arr := VArr l in
      time <- getattr self "time" ;;
      n <- size time ;;
      m <- size new_arr ;;
      if (n =? m)%nat then set_array_attrs (setattr self kw new_arr) rest
      else Raise ValueError
  end.

Definition init (time : option TTime) (array_attrs : list (string * list Q))
  (mjdref : Q) (notes : string) (gti : option (list (Q * Q)))
  (high_precision : bool) (ephem timeref timesys : option string)
  (other_kw : list (string * value)) : result instance :=
  let self := [] in
  let self := setattr self "notes" (VStr notes) in
  let self := setattr self "mjdref" (VNum mjdref) in
  let self := setattr self "gti"
                (match gti with Some rows => VArr2 rows | None => VNone end) in
  let self := setattr self "ephem" (opt_str ephem) in
  let self := setattr self "timeref" (opt_str timeref) in
  let self := setattr self "timesys" (opt_str timesys) in
  let self := setattr self "_mask" VNone in
  let self := setattr self "dt"
                (match assoc other_kw "dt" with Some v => v | None => VNum 0 end) in
  let other_kw := filter (fun kv => negb (String.eqb (fst kv) "dt")) other_kw in
  self <-
    match time with
    | Some time =>
        '(time, _) <- interpret_times time mjdref ;;
        time <- ndarray time ;;
        let self := setattr self "time" time in
        n <- size time ;;
        Ok (setattr self "ncounts" (VNum (Py.nat2Q n)))
    | None => Ok (setattr self "time" VNone)
    end ;;
  let self := fold_left (fun self kv => setattr self (fst kv) (snd kv)) other_kw self in
  set_array_attrs self array_attrs.

(** [StingrayTimeseries()]. *)
Definition init_default : result instance :=
  init None [] 0 "" None false None None None [].

(** *** The object store *)

Definition ref : Type := nat.
Definition heap : Type := list instance.

(** References are only made by [alloc], so [ReferenceError] does
    not arise for them. *)
Definition deref (h : heap) (r : ref) : result instance :=
  match nth_error h r with
  | Some o => Ok o
  | None => Raise ReferenceError
  end.

Definition alloc (h : heap) (o : instance) : ref * heap :=
  (List.length h, h ++ [o]).

Fixpoint update (h : heap) (r : ref) (o : instance) : heap :=
  match h, r with
  | [], _ => []
  | _ :: t, O => o :: t
  | x :: t, S r' => x :: update t r' o
  end.

Definition setattr_at (h : heap) (r : ref) (name : string) (v : value)
  : result heap :=
  o <- deref h r ;;
  Ok (update h r (setattr o name v)).

Definition getattr_at (h : heap) (r : ref) (name : string) : result value :=
  o <- deref h r ;;
  getattr o name.

Fixpoint foldM {A S : Type} (f : S -> A -> result S) (l : list A) (s : S)
  : result S :=
  match l with
  | [] => Ok s
  | a :: t => s' <- f s a ;; foldM f t s'
  end.

(** *** apply_mask *)

(** With [filtered_attrs=None] the names [filtered_attrs] and
    [all_attrs] denote one list, so the [append] reaches both. *)
Definition apply_mask (h : heap) (self : ref) (mask : list bool)
  (inplace : bool) (filtered_attrs : option (list string))
  : result (ref * heap) :=
  o <- deref h self ;;
  all_attrs <- array_attrs o ;;
  let aliased := match filtered_attrs with None => true | Some _ => false end in
  let filtered_attrs :=
    match filtered_attrs with None => all_attrs | Some f => f end in
  let filtered_attrs :=
    if Py.str_in "time" filtered_attrs then filtered_attrs
    else filtered_attrs ++ ["time"%string] in
  let all_attrs := if aliased then filtered_attrs else all_attrs in
  '(new_ts, h) <-
    (if inplace then
       h <- foldM (fun h attr =>
                     if negb (Py.str_in attr filtered_attrs)
                     then setattr_at h self attr VNone
                     else Ok h)
              all_attrs h ;;
       Ok (self, h)
     else
       fresh <- init_default ;;
       let '(new_ts, h) := alloc h fresh in
       metas <- meta_attrs o ;;
       h <- foldM (fun h attr =>
                     v <- getattr_at h self attr ;;
                     setattr_at h new_ts attr v)
              metas h ;;
       Ok (new_ts, h)) ;;
  h <- foldM (fun h attr =>
                v <- getattr_at h self attr ;;
                v <- getitem_mask v mask ;;
                setattr_at h new_ts attr v)
         filtered_attrs h ;;
  Ok (new_ts, h).

(** *** split_by_gti *)

Definition count_before (time : list Q) (t : Q) : Z :=
  Z.of_nat (List.length (filter (fun s => Py.Qltb s t) time)).

(** Modelled from the spec: [gti_border_bins] of the module
    [stingray/gti.py], which is not part of the sources.  For each GTI
    [start, stop), in GTI order, the index bounds of the samples of
    [time] that lie in it; their difference is the number of samples
    in the GTI. *)
Definition gti_border_bins (gti : list (Q * Q)) (time : list Q) (dt : value)
  : list Z * list Z :=
  (map (fun g => count_before time (fst g)) gti,
   map (fun g => count_before time (snd g)) gti).

(** Modelled from the spec: [create_gti_mask] of the module
    [stingray/gti.py], which is not part of the sources.  The mask of
    the entries of [time] that fall inside at least one GTI
    [start, stop). *)
Definition create_gti_mask (time : list Q) (gti : list (Q * Q)) : list bool :=
  map (fun t => existsb (fun g => Qle_bool (fst g) t && Py.Qltb t (snd g)) gti) time.

Definition split_step (self : ref) (gti : list (Q * Q)) (time : list Q)
  (start_bins stop_bins : list Z) (min_points : Z)
  (st : list ref * heap) (i : nat) : result (list ref * heap) :=
  let '(list_of_tss, h) := st in
  start <- Py.index start_bins (Z.of_nat i) ;;
  stop <- Py.index stop_bins (Z.of_nat i) ;;
  if (stop - start <? min_points)%Z then Ok st
  else
    g <- Py.index gti (Z.of_nat i) ;;
    let new_gti := [g] in
    let mask := create_gti_mask time new_gti in
    '(new_ts, h) <- apply_mask h self mask false None ;;
    h <- setattr_at h new_ts "gti" (VArr2 new_gti) ;;
    Ok (list_of_tss ++ [new_ts], h).

Definition split_by_gti (h : heap) (self : ref) (gti : option (list (Q * Q)))
  (min_points : Z) : result (list ref * heap) :=
  o <- deref h self ;;
  gti <- match gti with
         | Some rows => Ok rows
         | None =>
             g <- getattr o "gti" ;;
             match g with VArr2 rows => Ok rows | _ => Raise TypeError end
         end ;;
  time <- getattr o "time" ;;
  time <- match asarray time with
          | Some (N1 l) => Ok l
          | _ => Raise TypeError
          end ;;
  dt <- getattr o "dt" ;;
  let '(start_bins, stop_bins) := gti_border_bins gti time dt in
  foldM (split_step self gti time start_bins stop_bins min_points)
    (seq 0 (List.length start_bins)) ([], h).

(** *** shift and change_mjdref *)

(** [copy.deepcopy(self)]: attribute values are immutable in this
    model, so the copy is a new object with the same attributes. *)
Definition deepcopy (h : heap) (self : ref) : result (ref * heap) :=
  o <- deref h self ;;
  Ok (alloc h o).

Definition shift (h : heap) (self : ref) (time_shift : value)
  : result (ref * heap) :=
  '(ts, h) <- deepcopy h self ;;
  time <- getattr_at h ts "time" ;;
  time <- asarray_add time time_shift ;;
  h <- setattr_at h ts "time" time ;;
  o <- deref h ts ;;
  h <- (if hasattr o "gti" then
          gti <- getattr o "gti" ;;
          gti <- asarray_add gti time_shift ;;
          setattr_at h ts "gti" gti
        else Ok h) ;;
  Ok (ts, h).

Definition change_mjdref (h : heap) (self : ref) (new_mjdref : Q)
  : result (ref * heap) :=
  mjdref <- getattr_at h self "mjdref" ;;
  time_shift <- sub_mul mjdref new_mjdref 86400 ;;
  '(ts, h) <- shift h self time_shift ;;
  h <- setattr_at h ts "mjdref" (VNum new_mjdref) ;;
  Ok (ts, h).

(** *** get_meta_dict *)

(** The dict, with its keys in insertion order. *)
Definition get_meta_dict (o : instance) : result (list (string * value)) :=
  meta_attrs <- meta_attrs o ;;
  foldM (fun meta_dict key =>
           val <- getattr o key ;;
           if is_none val then Ok meta_dict else Ok (meta_dict ++ [(key, val)]))
    meta_attrs [].

End Base.

(** ** The parts of [rebin_data] *)

Module RebinParts.

(** [rebin_data] up to the end of its loop, where [method] has not
    been looked at yet: the first entry of [x], the old resolution,
    the step and the list [output]. *)
Definition rebin_loop (x y : list F64.float) (dx_new : F64.float)
  : result (F64.float * F64.float * F64.float * list F64.float) :=
  x1 <- Py.index x 1 ;;
  x0 <- Py.index x 0 ;;
  let dx_old := F64.sub x1 x0 in
  _ <- py_assert (F64.leb dx_old dx_new) ;;
  step_size <- F64.truediv dx_new dx_old ;;
  grid <- F64.arange 0 (Z.of_nat (length y)) step_size ;;
  output <- mapM (Utils.rebin_total x y step_size) grid ;;
  Ok (x0, dx_old, step_size, output).

(** The rest of [rebin_data], from the test of [method] on. *)
Definition rebin_finish (x : list F64.float) (dx_new : F64.float) (method : string)
  (x0 dx_old step_size : F64.float) (output : list F64.float)
  : result (list F64.float * list F64.float * F64.float) :=
  ybin <-
    (if Py.str_in method Utils.mean_methods then
       Ok (map (fun t => F64.div t step_size) output)
     else if String.eqb method "sum" then Ok output
     else Raise UnrecognizedMethod) ;;
  x_last <- Py.index x (-1) ;;
  let tseg := F64.add (F64.sub x_last x0) dx_old in
  ratio <- F64.truediv tseg dx_new ;;
  let ybin :=
    if F64.ltb (F64.of_Z 0) (F64.mod1 ratio) then removelast ybin else ybin in
  let xbin :=
    map (fun k =>
           F64.add (F64.sub (F64.add (F64.mul (F64.of_nat k) dx_new) x0) dx_old)
             dx_new)
      (seq 0 (length ybin)) in
  Ok (xbin, ybin, step_size).

End RebinParts.

(** ** Sample objects *)

Module Examples.

Import Val Base.

(** Integers as floats. *)
Definition floats (l : list Z) : list F64.float := map F64.of_Z l.

(** [x = [0, 7, 14, ..., 112]], seventeen samples seven apart. *)
Definition sevens : list F64.float :=
  map (fun k => F64.of_Z (7 * Z.of_nat k)) (seq 0 17).

(** [y = [1, 1, ..., 1]], seventeen samples. *)
Definition ones : list F64.float := repeat (F64.of_Z 1) 17.

(** [x = [0.0, 0.1, 0.2]]. *)
Definition tenths : list F64.float :=
  [F64.of_Z 0; F64.ratio 1 10; F64.ratio 2 10].

Definition built (r : result instance) : instance :=
  match r with
  | Ok o => o
  | Raise _ => []
  end.

(** [StingrayTimeseries(time=[1, 2, 3])]. *)
Definition ts_plain : instance :=
  built (init (Some (PyList [1; 2; 3])) [] 0 "" None false None None None []).

(** The series of the docstring of [apply_mask]:
    [StingrayTimeseries(time=[0, 1, 2], array_attrs={"counts": [2, 3, 4]},
    mission="nustar")]. *)
Definition ts_doc : instance :=
  built (init (Some (PyList [0; 1; 2])) [("counts"%string, [2; 3; 4])] 0 "" None
           false None None None [("mission"%string, VStr "nustar")]).

(** After [ts.bubuattr = [222, 111, 333]]. *)
Definition ts_doc_list : instance :=
  setattr ts_doc "bubuattr" (VList [222; 111; 333]).

(** [StingrayTimeseries(time=[0, 1, 2, 3, 4, 10, 11],
    gti=[[0, 5], [10, 12]])]. *)
Definition ts_gti : instance :=
  built (init (Some (PyList [0; 1; 2; 3; 4; 10; 11])) [] 0 ""
           (Some [(0, 5); (10, 12)]) false None None None []).

(** The same with the keyword [counts=[1, 1, 1, 1, 1, 1, 1]], which
    the constructor stores as the list it is given. *)
Definition ts_gti_list : instance :=
  built (init (Some (PyList [0; 1; 2; 3; 4; 10; 11])) [] 0 ""
           (Some [(0, 5); (10, 12)]) false None None None
           [("counts"%string, VList [1; 1; 1; 1; 1; 1; 1])]).

(** The tables below list their columns in the order of [dir], as
    [to_astropy_table] builds them. *)

(** Columns [a = [1+2j, 3+4j]], [b = [5+6j, 7+8j]] and [time]. *)
Definition two_complex : Table.table :=
  [ ("a"%string, Table.Cplx [(1, 2); (3, 4)]);
    ("b"%string, Table.Cplx [(5, 6); (7, 8)]);
    ("time"%string, Table.Real [0; 1]) ].

(** Columns [c = [1+0j, 2+3j]] and [time]. *)
Definition real_first : Table.table :=
  [ ("c"%string, Table.Cplx [(1, 0); (2, 3)]);
    ("time"%string, Table.Real [0; 1]) ].

(** Columns [c = [1+2j, 3+4j]] and [time]. *)
Definition one_complex : Table.table :=
  [ ("c"%string, Table.Cplx [(1, 2); (3, 4)]);
    ("time"%string, Table.Real [0; 1]) ].

End Examples.

(** ** Vocabulary of the further properties *)

Module Vocabulary.

Import Val Base.

(** The positions, counted from [off], at which a boolean sequence
    differs from the entry before; [prev] precedes the first one. *)
Fixpoint changes (off : nat) (prev : bool) (l : list bool) : list nat :=
  match l with
  | [] => []
  | c :: t => (if xorb c prev then [off] else []) ++ changes (S off) c t
  end.

(** Position [i] lies in one of the regions. *)
Definition covered (regions : list (nat * nat)) (i : nat) : Prop :=
  exists a b, In (a, b) regions /\ (a <= i < b)%nat.

(** Strictly increasing. *)
Fixpoint increasing (l : list nat) : Prop :=
  match l with
  | [] => True
  | a :: t =>
      match t with
      | b :: _ => (a < b)%nat
      | [] => True
      end /\ increasing t
  end.

(** The bounds of the regions, in order. *)
Definition bounds (regions : list (nat * nat)) : list nat :=
  flat_map (fun p => [fst p; snd p]) regions.

(** [v] equals an entry of [array2]. *)
Definition shared (array2 : list Q) (v : Q) : Prop :=
  exists w, In w array2 /\ v == w.

(** The shape of the data is kept and each array is read through
    [order]. *)
Definition reordered (order : list Z) (data : Utils.arrays)
  (result : option Utils.arrays) : Prop :=
  match data, result with
  | Utils.DictOf d, Some (Utils.DictOf d') =>
      Forall2 (fun kv kv' =>
                 fst kv' = fst kv
                 /\ Forall2 (fun z v => Py.index (snd kv) z = Ok v) order (snd kv'))
        d d'
  | Utils.ListOf l, Some (Utils.ListOf l') =>
      Forall2 (fun a a' => Forall2 (fun z v => Py.index a z = Ok v) order a') l l'
  | Utils.NotIterable, None => True
  | _, _ => False
  end.

(** The entries [get_meta_dict] adds for a list of names. *)
Definition meta_items (o : instance) (names : list string) : list (string * value) :=
  flat_map (fun key =>
              match lookup o key with
              | Some val => if is_none val then [] else [(key, val)]
              | None => []
              end) names.

(** Each entry is below all the later ones. *)
Fixpoint ascending (l : list string) : Prop :=
  match l with
  | [] => True
  | a :: t => Forall (fun x => String.compare a x = Lt) t /\ ascending t
  end.

(** The value an array attribute has after masking. *)
Definition masked (o : instance) (mask : list bool) (n : string) : value :=
  match lookup o n with
  | Some (VArr a) => VArr (select mask a)
  | _ => VNone
  end.

(** The value an attribute has in the source. *)
Definition held (o : instance) (n : string) : value :=
  match lookup o n with
  | Some v => v
  | None => VNone
  end.

(** A column of dtype float with at least one row. *)
Definition real_rows (c : Table.column) : Prop :=
  exists v l, c = Table.Real (v :: l).

(** A column name that [read] passes over. *)
Definition plain_name (name : string) : Prop :=
  Str.endswith name ".real" = false /\ Str.endswith name ".imag" = false.

End Vocabulary.

Import Vocabulary.

(** * Properties *)

(** ** The primitives *)

Section Primitives.

Lemma Qltb_lt (a b : Q) : Py.Qltb a b = true <-> a < b.
Proof.
  unfold Py.Qltb. rewrite negb_true_iff.
  split; intro H.
  - apply Qnot_le_lt. intro Hle. apply Qle_bool_iff in Hle. congruence.
  - destruct (Qle_bool b a) eqn:E; [|reflexivity].
    apply Qle_bool_iff in E. exfalso. apply (Qlt_not_le _ _ H E).
Qed.

Lemma Qltb_ge (a b : Q) : Py.Qltb a b = false <-> b <= a.
Proof.
  unfold Py.Qltb. rewrite negb_false_iff. apply Qle_bool_iff.
Qed.

Lemma index_ok {A : Type} (l : list A) (z : Z) :
  (0 <= z < Z.of_nat (List.length l))%Z ->
  exists a, Py.index l z = Ok a /\ nth_error l (Z.to_nat z) = Some a.
Proof.
  intros [H0 H1]. unfold Py.index.
  destruct (z <? 0)%Z eqn:E; [apply Z.ltb_lt in E; lia|].
  assert ((0 <=? z)%Z && (z <? Z.of_nat (List.length l))%Z = true) as ->.
  { apply andb_true_iff. split; [apply Z.leb_le | apply Z.ltb_lt]; lia. }
  destruct (nth_error l (Z.to_nat z)) eqn:N; [eauto|].
  apply nth_error_None in N. lia.
Qed.

Lemma index_nth {A : Type} (l : list A) (z : Z) (d : A) :
  (0 <= z < Z.of_nat (List.length l))%Z ->
  Py.index l z = Ok (nth (Z.to_nat z) l d).
Proof.
  intros H. destruct (index_ok l z H) as (a & -> & Hn).
  f_equal. symmetry. now apply nth_error_nth.
Qed.

Lemma index_last {A : Type} (l : list A) (d : A) :
  l <> [] -> Py.index l (-1) = Ok (last l d).
Proof.
  intros Hne. unfold Py.index. cbn [Z.ltb Z.compare].
  assert (0 < List.length l)%nat as Hlen by (destruct l; [congruence | simpl; lia]).
  assert ((0 <=? -1 + Z.of_nat (List.length l))%Z
          && (-1 + Z.of_nat (List.length l) <? Z.of_nat (List.length l))%Z = true) as ->.
  { apply andb_true_iff. split; [apply Z.leb_le | apply Z.ltb_lt]; lia. }
  replace (Z.to_nat (-1 + Z.of_nat (List.length l))) with (List.length l - 1)%nat by lia.
  destruct (@exists_last _ l Hne) as (l' & a & ->).
  rewrite last_last, length_app. simpl.
  rewrite nth_error_app2 by lia.
  replace (List.length l' + 1 - 1 - List.length l')%nat with 0%nat by lia.
  reflexivity.
Qed.

Lemma mapM_ok {A B : Type} (f : A -> result B) (P : A -> B -> Prop) (l : list A) :
  (forall a, In a l -> exists b, f a = Ok b /\ P a b) ->
  exists bs, mapM f l = Ok bs /\ Forall2 P l bs.
Proof.
  induction l as [|a t IH]; intros H; simpl.
  - exists []. split; [reflexivity | constructor].
  - destruct (H a (or_introl eq_refl)) as (b & Hb & Pb).
    destruct IH as (bs & Hbs & Pbs); [intros; apply H; now right|].
    exists (b :: bs). rewrite Hb, Hbs. simpl. split; [reflexivity | now constructor].
Qed.

End Primitives.

(** ** Claims on rebin_data *)

Section RebinClaims.

Import F64 RebinParts.

Lemma map_removelast {A B : Type} (f : A -> B) (l : list A) :
  map f (removelast l) = removelast (map f l).
Proof.
  induction l as [|a [|b t] IH]; [reflexivity | reflexivity |].
  change (map f (a :: removelast (b :: t)) = f a :: removelast (map f (b :: t))).
  now rewrite <- IH.
Qed.

(** [rebin_data] is its loop followed by the rest. *)
Lemma rebin_data_parts (x y : list float) (dx_new : float) (method : string) :
  Utils.rebin_data x y dx_new method
  = ('(x0, dx_old, step_size, output) <- rebin_loop x y dx_new ;;
     rebin_finish x dx_new method x0 dx_old step_size output).
Proof.
  unfold Utils.rebin_data, rebin_loop.
  destruct (Py.index x 1) as [x1|]; [|reflexivity]. cbn [bind].
  destruct (Py.index x 0) as [x0|]; [|reflexivity]. cbn [bind].
  destruct (py_assert _); [|reflexivity]. cbn [bind].
  destruct (truediv dx_new _) as [step_size|]; [|reflexivity]. cbn [bind].
  destruct (arange _ _ _) as [grid|]; [|reflexivity]. cbn [bind].
  destruct (mapM _ _) as [output|]; reflexivity.
Qed.

Lemma eqb_zero (f : float) :
  eqb f (of_Z 0) = true <-> exists s, f = S754_zero s.
Proof.
  destruct f as [s|s| |s m e]; cbn; split; try discriminate; eauto;
    try (intros [? [=]]); destruct s; discriminate.
Qed.

(** A run that passes the loop has two entries of [x] to take the
    old resolution from, passed the assertion, and has a new
    resolution other than zero. *)
Lemma rebin_loop_passed (x y : list float) (dx_new x0 dx_old step_size : float)
  (output : list float) :
  rebin_loop x y dx_new = Ok (x0, dx_old, step_size, output) ->
  exists x1,
    Py.index x 1 = Ok x1 /\ Py.index x 0 = Ok x0
    /\ dx_old = sub x1 x0
    /\ leb dx_old dx_new = true
    /\ step_size = div dx_new dx_old
    /\ eqb dx_new (of_Z 0) = false.
Proof.
  unfold rebin_loop.
  destruct (Py.index x 1) as [x1|]; [|discriminate]. cbn [bind].
  destruct (Py.index x 0) as [x0'|]; [|discriminate]. cbn [bind].
  destruct (leb (sub x1 x0') dx_new) eqn:Hle; [|discriminate]. cbn [py_assert bind].
  unfold truediv at 1.
  destruct (eqb (sub x1 x0') (of_Z 0)) eqn:Hold; [discriminate|]. cbn [bind].
  unfold arange, truediv.
  destruct (eqb (div dx_new (sub x1 x0')) (of_Z 0)) eqn:Hstep; [discriminate|].
  cbn [bind].
  destruct (match div (of_Z _) _ with S754_nan => _ | _ => _ end); [|discriminate].
  cbn [bind].
  destruct (mapM _ _); [|discriminate]. cbn [bind].
  intros [= <- <- <- <-]. exists x1. repeat split; try assumption.
  destruct (eqb dx_new (of_Z 0)) eqn:Hnew; [|reflexivity].
  apply eqb_zero in Hnew as [s ->]. exfalso.
  destruct (sub x1 x0') as [s'|s'| |s' m e]; cbn in Hold, Hstep, Hle;
    try discriminate; destruct s, s'; discriminate.
Qed.

Lemma index_last_ok {A : Type} (l : list A) (a : A) :
  Py.index l 0 = Ok a -> exists b, Py.index l (-1) = Ok b.
Proof.
  destruct l as [|c t]; [discriminate|]. intros _.
  exists (last (c :: t) c). apply index_last. discriminate.
Qed.

(** After a loop that passed, a method string is accepted or raises
    [UnrecognizedMethod]. *)
Lemma rebin_data_after_loop (x y : list float) (dx_new : float) (method : string)
  (x0 dx_old step_size : float) (output : list float) :
  rebin_loop x y dx_new = Ok (x0, dx_old, step_size, output) ->
  if Py.str_in method ["sum"; "mean"; "avg"; "average"; "arithmetic mean"]%string
  then exists xbin ybin,
      Utils.rebin_data x y dx_new method = Ok (xbin, ybin, step_size)
  else Utils.rebin_data x y dx_new method = Raise UnrecognizedMethod.
Proof.
  intros Hloop. rewrite rebin_data_parts, Hloop. cbn [bind].
  destruct (rebin_loop_passed _ _ _ _ _ _ _ Hloop) as (x1 & _ & H0 & _ & _ & _ & Hnew).
  destruct (index_last_ok x x0 H0) as (x_last & Hlast).
  unfold rebin_finish, Utils.mean_methods. cbn [Py.str_in existsb].
  destruct (method =? "sum")%string; cbn [orb].
  - destruct (_ || _); cbn [bind]; rewrite Hlast; cbn [bind];
      unfold truediv; rewrite Hnew; cbn [bind]; do 2 eexists; reflexivity.
  - destruct (_ || _); cbn [bind]; [|reflexivity].
    rewrite Hlast. cbn [bind]. unfold truediv. rewrite Hnew. cbn [bind].
    do 2 eexists. reflexivity.
Qed.

(** C7: the example of the claim, [rebin_data([0,1,2,3], [1,1,1,1],
    2, "sum")], gives the binned values [2, 2].  On the seventeen
    samples [x = [0, 7, ..., 112]], [y = [1, ..., 1]] with
    [dx_new = 17], which pass the assertion, the step [17/7] is rounded
    down, the quotient [17 / step] is rounded up above 7, so the grid
    gets an eighth entry, 17, and [y[17]] raises IndexError.  On
    [x = [0.0, 0.1, 0.2]], [y = [1, 2, 3]] with [dx_new = 0.1] the span
    over [dx_new] is rounded up above 3 and the last bin, a whole one,
    is dropped. *)
Theorem rebin_data_sum_rounding :
  Utils.rebin_data (Examples.floats [0; 1; 2; 3]%Z) (Examples.floats [1; 1; 1; 1]%Z)
    (of_Z 2) "sum"
  = Ok (Examples.floats [1; 3]%Z, Examples.floats [2; 2]%Z, of_Z 2)
  /\ leb (sub (of_Z 7) (of_Z 0)) (of_Z 17) = true
  /\ (exists grid,
         arange 0 17 (ratio 17 7) = Ok grid
         /\ List.length grid = 8%nat /\ last grid (of_Z 0) = of_Z 17)
  /\ Utils.rebin_data Examples.sevens Examples.ones (of_Z 17) "sum" = Raise IndexError
  /\ Utils.rebin_data Examples.tenths (Examples.floats [1; 2; 3]%Z) (ratio 1 10) "sum"
     = Ok ([of_Z 0; ratio 1 10], Examples.floats [1; 2]%Z, of_Z 1).
Proof.
  split; [vm_compute; reflexivity|].
  split; [vm_compute; reflexivity|].
  split; [eexists; split; [vm_compute; reflexivity | split; vm_compute; reflexivity]|].
  split; vm_compute; reflexivity.
Qed.

(** C8, as amended: the accepted method strings are "sum", "mean",
    "avg", "average" and "arithmetic mean"; on an input that passes the
    resolution assertion and the binning loop, each of them makes
    [rebin_data] return and every other string makes it raise
    [UnrecognizedMethod]. *)
Theorem rebin_data_methods (x y : list float) (dx_new : float) (method : string)
  (x0 dx_old step_size : float) (output : list float) :
  rebin_loop x y dx_new = Ok (x0, dx_old, step_size, output) ->
  if Py.str_in method ["sum"; "mean"; "avg"; "average"; "arithmetic mean"]%string
  then exists xbin ybin,
      Utils.rebin_data x y dx_new method = Ok (xbin, ybin, step_size)
  else Utils.rebin_data x y dx_new method = Raise UnrecognizedMethod.
Proof.
  intros Hloop.
  pose proof (rebin_data_after_loop x y dx_new method _ _ _ _ Hloop) as H.
  destruct (Py.str_in method _); exact H.
Qed.

(** The hypothesis of C8 is needed: on the seventeen samples of C7
    the loop raises before the method is looked at. *)
Lemma rebin_data_loop_comes_first :
  rebin_loop Examples.sevens Examples.ones (of_Z 17) = Raise IndexError
  /\ Utils.rebin_data Examples.sevens Examples.ones (of_Z 17) "median"
     = Raise IndexError.
Proof. split; vm_compute; reflexivity. Qed.

(** C8 as stated fails: "avg" is not among "sum", "mean", "average",
    "arithmetic mean", and it is accepted as a mean. *)
Lemma rebin_data_accepts_avg :
  ~ In "avg"%string ["sum"; "mean"; "average"; "arithmetic mean"]%string
  /\ Utils.rebin_data (Examples.floats [0; 1; 2; 3]%Z) (Examples.floats [1; 1; 1; 1]%Z)
       (of_Z 2) "avg"
     = Ok (Examples.floats [1; 3]%Z, Examples.floats [1; 1]%Z, of_Z 2)
  /\ Utils.rebin_data (Examples.floats [0; 1; 2; 3]%Z) (Examples.floats [1; 1; 1; 1]%Z)
       (of_Z 2) "avg"
     <> Raise UnrecognizedMethod.
Proof.
  split; [|split].
  - simpl. intros [H|[H|[H|[H|[]]]]]; discriminate.
  - vm_compute. reflexivity.
  - vm_compute. discriminate.
Qed.

(** C10: [rebin_data] returns three values.  The resolution
    assertion comes first; whenever the function returns, its third
    value is the float [dx_new / (x[1] - x[0])], whatever the method;
    and it does return, with that third value, for every accepted
    method on an input that passes the assertion and the binning
    loop. *)
Theorem rebin_data_step_size (x y rest : list float) (x0 x1 dx_new : float)
  (method : string) :
  x = x0 :: x1 :: rest ->
  (leb (sub x1 x0) dx_new = false ->
   Utils.rebin_data x y dx_new method = Raise AssertionError)
  /\ (forall xbin ybin step_size,
         Utils.rebin_data x y dx_new method = Ok (xbin, ybin, step_size) ->
         leb (sub x1 x0) dx_new = true /\ step_size = div dx_new (sub x1 x0))
  /\ (forall first dx_old step_size output,
         rebin_loop x y dx_new = Ok (first, dx_old, step_size, output) ->
         Py.str_in method ("sum"%string :: Utils.mean_methods) = true ->
         exists xbin ybin,
           Utils.rebin_data x y dx_new method
           = Ok (xbin, ybin, div dx_new (sub x1 x0))).
Proof.
  intros Hx.
  assert (Py.index x 1 = Ok x1) as H1.
  { rewrite (index_nth x 1 x0) by (rewrite Hx; simpl List.length; lia).
    rewrite Hx. reflexivity. }
  assert (Py.index x 0 = Ok x0) as H0.
  { rewrite (index_nth x 0 x0) by (rewrite Hx; simpl List.length; lia).
    rewrite Hx. reflexivity. }
  split; [|split].
  - intros Hlt. unfold Utils.rebin_data. rewrite H1, H0. cbn [bind].
    rewrite Hlt. reflexivity.
  - intros xbin ybin step_size. rewrite rebin_data_parts.
    destruct (rebin_loop x y dx_new) as [[[[first dx_old] step] output]|] eqn:Hloop;
      [|discriminate].
    cbn [bind].
    destruct (rebin_loop_passed _ _ _ _ _ _ _ Hloop)
      as (x1' & H1' & H0' & -> & Hle & -> & _).
    rewrite H1 in H1'. rewrite H0 in H0'. injection H1' as <-. injection H0' as <-.
    unfold rebin_finish.
    destruct (if Py.str_in method Utils.mean_methods then _ else _);
      [|discriminate]. cbn [bind].
    destruct (Py.index x (-1)); [|discriminate]. cbn [bind].
    destruct (truediv _ dx_new); [|discriminate]. cbn [bind].
    intros [= _ _ <-]. split; [assumption | reflexivity].
  - intros first dx_old step_size output Hloop Hm.
    pose proof (rebin_data_after_loop x y dx_new method _ _ _ _ Hloop) as H.
    destruct (rebin_loop_passed _ _ _ _ _ _ _ Hloop)
      as (x1' & H1' & H0' & -> & _ & -> & _).
    rewrite H1 in H1'. rewrite H0 in H0'. injection H1' as <-. injection H0' as <-.
    cbn [Py.str_in existsb] in Hm, H. unfold Utils.mean_methods in Hm.
    cbn [Py.str_in existsb] in Hm. rewrite Hm in H. exact H.
Qed.

End RebinClaims.

(** ** Claims on time_intervals_from_gtis *)

Section TimeIntervals.

Lemma inject_Z_le (a b : Z) : (a <= b)%Z -> inject_Z a <= inject_Z b.
Proof. intros. now rewrite <- Zle_Qle. Qed.

Lemma ceiling_nonpos (q : Q) : (Qceiling q <= 0)%Z <-> q <= 0.
Proof.
  split; intros H.
  - apply Qle_trans with (inject_Z (Qceiling q)); [apply Qle_ceiling|].
    change 0 with (inject_Z 0). now apply inject_Z_le.
  - change 0%Z with (Qceiling 0). now apply Qceiling_resp_le.
Qed.

(** The start times collected by the loop, and when there are none. *)
Lemma gti_start_times_ok (gtis : list (Q * Q)) (chunk_length : Q) (acc : list Q) :
  0 < chunk_length ->
  exists new,
    Utils.gti_start_times gtis chunk_length acc = Ok (acc ++ new)
    /\ (new = [] <-> Forall (fun g => snd g - fst g <= chunk_length) gtis).
Proof.
  intros Hc. revert acc.
  induction gtis as [|g rest IH]; intros acc; simpl.
  - exists []. rewrite app_nil_r. split; [reflexivity|]. split; auto.
  - destruct (Py.Qltb (snd g - fst g) chunk_length) eqn:E.
    + apply Qltb_lt in E. destruct (IH acc) as (new & -> & Hnew).
      exists new. split; [reflexivity|]. rewrite Hnew. split; intros H.
      * constructor; [lra | exact H].
      * now inversion H.
    + apply Qltb_ge in E. unfold Py.arange.
      destruct (Qeq_bool chunk_length 0) eqn:E0.
      { apply Qeq_bool_iff in E0. lra. }
      cbn [bind].
      set (q := (snd g - chunk_length - fst g) / chunk_length).
      set (newtimes := map _ (seq 0 (Z.to_nat (Qceiling q)))).
      destruct (IH (acc ++ newtimes)) as (new & -> & Hnew).
      exists (newtimes ++ new). rewrite app_assoc. split; [reflexivity|].
      assert (q <= 0 <-> snd g - fst g <= chunk_length) as Hq.
      { unfold q. split; intros H.
        - apply Qmult_le_r with (z := chunk_length) in H; [|exact Hc].
          assert ((snd g - chunk_length - fst g) / chunk_length * chunk_length
                  == snd g - chunk_length - fst g) as A by (field; lra).
          rewrite A in H. lra.
        - apply Qle_shift_div_r; [exact Hc | lra]. }
      split; intros H.
      * apply app_eq_nil in H as [H1 H2]. constructor; [|now apply Hnew].
        apply Hq, ceiling_nonpos.
        unfold newtimes in H1. apply map_eq_nil in H1.
        destruct (Z.to_nat (Qceiling q)) eqn:En; [lia | discriminate].
      * inversion H as [|? ? Hg Hrest]; subst.
        apply Hnew in Hrest as ->. rewrite app_nil_r.
        apply Hq, ceiling_nonpos in Hg. unfold newtimes.
        replace (Z.to_nat (Qceiling q)) with 0%nat by lia. reflexivity.
Qed.

Lemma short_or_long (gtis : list (Q * Q)) (chunk_length : Q) :
  Forall (fun g => snd g - fst g <= chunk_length) gtis
  \/ Exists (fun g => chunk_length < snd g - fst g) gtis.
Proof.
  induction gtis as [|g rest [IH|IH]].
  - left. constructor.
  - destruct (Qlt_le_dec chunk_length (snd g - fst g)) as [Hl|Hs].
    + right. now constructor.
    + left. now constructor.
  - right. now constructor 2.
Qed.

(** In exact arithmetic: for a positive chunk length the assertion
    fails exactly when no GTI is strictly longer than the chunk;
    otherwise the start times are returned together with the stop
    times. *)
Lemma time_intervals_from_gtis_cases (gtis : list (Q * Q)) (chunk_length : Q) :
  0 < chunk_length ->
  (Forall (fun g => snd g - fst g <= chunk_length) gtis
   /\ Utils.time_intervals_from_gtis gtis chunk_length = Raise AssertionError)
  \/ (Exists (fun g => chunk_length < snd g - fst g) gtis
      /\ exists t ts,
          Utils.time_intervals_from_gtis gtis chunk_length
          = Ok (t :: ts, map (fun s => s + chunk_length) (t :: ts))).
Proof.
  intros Hc. unfold Utils.time_intervals_from_gtis.
  destruct (gti_start_times_ok gtis chunk_length [] Hc) as (new & -> & Hnew).
  cbn [app bind]. destruct new as [|t ts].
  - left. split; [now apply Hnew | reflexivity].
  - right. split; [|exists t, ts; reflexivity].
    destruct (short_or_long gtis chunk_length) as [HF|HE]; [|exact HE].
    apply Hnew in HF. discriminate.
Qed.

(** C2: with the single GTI [0, 10], which is exactly as long as the
    chunk length 10, the assertion fails, although a GTI equal to the
    chunk length exists. *)
Theorem time_intervals_from_gtis_equal_length :
  Qle_bool 10 (snd (0, 10) - fst (0, 10)) = true
  /\ Utils.time_intervals_from_gtis [(0, 10)] 10 = Raise AssertionError.
Proof. split; reflexivity. Qed.

End TimeIntervals.

(** ** Claims on interpret_times *)

Section InterpretTimes.

Import Val Base.

(** C6: for a calendar time whose MJD values all exceed 10000 and the
    default epoch 0, [interpret_times] takes the first MJD value as
    the epoch and returns [((mjd - epoch) * 86400, epoch)], for a
    scalar and for an array; at MJD 57483 this is [(0, 57483)]. *)
Theorem interpret_times_calendar :
  interpret_times (Time (Scalar 57483)) 0 = Ok (VNum 0, 57483)
  /\ (forall m : Q,
         10000 < m ->
         interpret_times (Time (Scalar m)) 0 = Ok (VNum ((m - m) * 86400), m))
  /\ (forall (m : Q) (ms : list Q),
         Forall (fun v => 10000 < v) (m :: ms) ->
         interpret_times (Time (Array (m :: ms))) 0
         = Ok (VArr (map (fun v => (v - m) * 86400) (m :: ms)), m)).
Proof.
  split; [reflexivity | split].
  - intros m Hm. unfold interpret_times.
    change (Qeq_bool 0 0) with true. cbv iota.
    apply Qltb_lt in Hm. rewrite Hm. reflexivity.
  - intros m ms Hall. unfold interpret_times.
    change (Qeq_bool 0 0) with true. cbv iota.
    assert (forallb (fun v => Py.Qltb 10000 v) (m :: ms) = true) as ->.
    { apply forallb_forall. intros v Hv.
      rewrite Forall_forall in Hall. apply Qltb_lt. now apply Hall. }
    rewrite (index_nth (m :: ms) 0 0) by (simpl List.length; lia).
    reflexivity.
Qed.

End InterpretTimes.

(** ** Objects and the store *)

Section Store.

Import Val Base.

Lemma assoc_setattr_eq (o : instance) (n : string) (v : value) :
  assoc (setattr o n v) n = Some v.
Proof.
  induction o as [|[m w] r IH]; simpl.
  - now rewrite String.eqb_refl.
  - destruct (String.eqb m n) eqn:E; simpl; rewrite E; [reflexivity | exact IH].
Qed.

Lemma assoc_setattr_neq (o : instance) (n m : string) (v : value) :
  n <> m -> assoc (setattr o n v) m = assoc o m.
Proof.
  intros Hne. induction o as [|[k w] r IH]; simpl.
  - destruct (String.eqb n m) eqn:E; [apply String.eqb_eq in E; contradiction | reflexivity].
  - destruct (String.eqb k n) eqn:E; simpl.
    + apply String.eqb_eq in E. subst k.
      destruct (String.eqb n m) eqn:E'; [apply String.eqb_eq in E'; contradiction | reflexivity].
    + destruct (String.eqb k m); [reflexivity | exact IH].
Qed.

Lemma assoc_setattr_some (o : instance) (n m : string) (v : value) :
  assoc o m <> None -> assoc (setattr o n v) m <> None.
Proof.
  intros H. destruct (string_dec n m) as [<-|Hne].
  - rewrite assoc_setattr_eq. discriminate.
  - now rewrite assoc_setattr_neq.
Qed.

Lemma deref_alloc (h : heap) (o : instance) :
  deref (h ++ [o]) (List.length h) = Ok o.
Proof.
  unfold deref. rewrite nth_error_app2, Nat.sub_diag by lia. reflexivity.
Qed.

Lemma deref_alloc_old (h : heap) (o x : instance) (r : ref) :
  deref h r = Ok x -> deref (h ++ [o]) r = Ok x.
Proof.
  unfold deref. destruct (nth_error h r) eqn:E; [|discriminate].
  intros [= <-]. rewrite nth_error_app1; [now rewrite E|].
  apply nth_error_Some. congruence.
Qed.

Lemma update_alloc (h : heap) (o o' : instance) :
  update (h ++ [o]) (List.length h) o' = h ++ [o'].
Proof.
  induction h as [|x h IH]; simpl; [reflexivity | now rewrite IH].
Qed.

Lemma setattr_at_alloc (h : heap) (o : instance) (n : string) (v : value) :
  setattr_at (h ++ [o]) (List.length h) n v = Ok (h ++ [setattr o n v]).
Proof.
  unfold setattr_at. rewrite deref_alloc. cbn [bind]. now rewrite update_alloc.
Qed.

(** Adding a scalar to an array never fails for want of a shape. *)
Lemma asarray_add_scalar (v : value) (s : Q) :
  (exists w, asarray_add v (VNum s) = Ok w) \/ asarray_add v (VNum s) = Raise TypeError.
Proof.
  unfold asarray_add. destruct v; cbn; eauto.
Qed.

End Store.

(** ** Claims on shift and change_mjdref *)

Section Shift.

Import Val Base.

Lemma shift_gti_none (h : heap) (self : ref) (o : instance) (s : Q) :
  deref h self = Ok o ->
  assoc o "time" <> None ->
  assoc o "gti" = Some VNone ->
  shift h self (VNum s) = Raise TypeError.
Proof.
  intros Hself Htime Hgti. unfold shift, deepcopy, alloc.
  rewrite Hself. cbn [bind]. unfold getattr_at. rewrite deref_alloc. cbn [bind].
  unfold getattr, lookup. destruct (assoc o "time") as [t|] eqn:Et; [|contradiction].
  cbn [bind].
  destruct (asarray_add_scalar t s) as [(w & ->)| ->]; [|reflexivity].
  cbn [bind]. rewrite setattr_at_alloc. cbn [bind]. rewrite deref_alloc. cbn [bind].
  unfold hasattr, lookup. rewrite assoc_setattr_neq, Hgti by discriminate.
  reflexivity.
Qed.

Lemma fold_setattr_other (kws : list (string * value)) (o : instance) (n : string) :
  ~ In n (map fst kws) ->
  assoc (fold_left (fun self kv => setattr self (fst kv) (snd kv)) kws o) n
  = assoc o n.
Proof.
  revert o. induction kws as [|[k v] r IH]; intros o Hn; simpl; [reflexivity|].
  rewrite IH by (intros H; apply Hn; now right).
  apply assoc_setattr_neq. intros ->. apply Hn. now left.
Qed.

Lemma fold_setattr_some (kws : list (string * value)) (o : instance) (n : string) :
  assoc o n <> None ->
  assoc (fold_left (fun self kv => setattr self (fst kv) (snd kv)) kws o) n <> None.
Proof.
  revert o. induction kws as [|[k v] r IH]; intros o Hn; simpl; [exact Hn|].
  apply IH. now apply assoc_setattr_some.
Qed.

Lemma set_array_attrs_other (attrs : list (string * list Q)) (o o' : instance)
  (n : string) :
  ~ In n (map fst attrs) ->
  set_array_attrs o attrs = Ok o' -> assoc o' n = assoc o n.
Proof.
  revert o. induction attrs as [|[k l] r IH]; intros o Hn; simpl.
  - now intros [= <-].
  - destruct (getattr o "time"); [|discriminate]. cbn [bind].
    destruct (size a); [|discriminate]. cbn [bind].
    destruct (_ =? _)%nat; [|discriminate].
    intros H. rewrite (IH _ (fun H' => Hn (or_intror H')) H).
    apply assoc_setattr_neq. intros ->. apply Hn. now left.
Qed.

Lemma set_array_attrs_some (attrs : list (string * list Q)) (o o' : instance)
  (n : string) :
  assoc o n <> None -> set_array_attrs o attrs = Ok o' -> assoc o' n <> None.
Proof.
  revert o. induction attrs as [|[k l] r IH]; intros o Hn; simpl.
  - now intros [= <-].
  - destruct (getattr o "time"); [|discriminate]. cbn [bind].
    destruct (size a); [|discriminate]. cbn [bind].
    destruct (_ =? _)%nat; [|discriminate].
    apply IH. now apply assoc_setattr_some.
Qed.

(** A series constructed without a GTI list has the attribute [gti],
    holding [None], and the attribute [time]. *)
Lemma init_without_gti (time : option TTime) (array_attrs : list (string * list Q))
  (mjdref : Q) (notes : string) (high_precision : bool)
  (ephem timeref timesys : option string) (other_kw : list (string * value))
  (o : instance) :
  ~ In "gti"%string (map fst other_kw) ->
  ~ In "gti"%string (map fst array_attrs) ->
  init time array_attrs mjdref notes None high_precision ephem timeref timesys other_kw
  = Ok o ->
  assoc o "gti" = Some VNone /\ assoc o "time" <> None.
Proof.
  intros Hkw Harr. unfold init.
  set (base := setattr (setattr _ "_mask" _) "dt" _).
  assert (assoc base "gti" = Some VNone) as Hbase by reflexivity.
  set (kws := filter _ other_kw).
  assert (~ In "gti"%string (map fst kws)) as Hkws.
  { intros H. apply Hkw. apply in_map_iff in H as (kv & <- & Hin).
    apply filter_In in Hin as [Hin _]. now apply in_map. }
  destruct time as [t|].
  - destruct (interpret_times t mjdref) as [[tv m]|]; [|discriminate]. cbn [bind].
    destruct (ndarray tv) as [arr|]; [|discriminate]. cbn [bind].
    destruct (size arr) as [n|]; [|discriminate]. cbn [bind].
    intros H. split.
    + rewrite (set_array_attrs_other _ _ _ _ Harr H), fold_setattr_other by exact Hkws.
      rewrite !assoc_setattr_neq by discriminate. exact Hbase.
    + eapply set_array_attrs_some; [|exact H]. apply fold_setattr_some.
      apply assoc_setattr_some. rewrite assoc_setattr_eq. discriminate.
  - cbn [bind]. intros H. split.
    + rewrite (set_array_attrs_other _ _ _ _ Harr H), fold_setattr_other by exact Hkws.
      rewrite !assoc_setattr_neq by discriminate. exact Hbase.
    + eapply set_array_attrs_some; [|exact H]. apply fold_setattr_some.
      rewrite assoc_setattr_eq. discriminate.
Qed.

(** C9: for every time series whose [gti] attribute is [None],
    [shift] raises TypeError, and so does [change_mjdref] when
    [mjdref] is a number. *)
Theorem shift_without_gti (h : heap) (self : ref) (o : instance) :
  deref h self = Ok o ->
  assoc o "time" <> None ->
  assoc o "gti" = Some VNone ->
  (forall time_shift : Q, shift h self (VNum time_shift) = Raise TypeError)
  /\ (forall mjdref new_mjdref : Q,
         assoc o "mjdref" = Some (VNum mjdref) ->
         change_mjdref h self new_mjdref = Raise TypeError).
Proof.
  intros Hself Htime Hgti. split.
  - intros s. now apply shift_gti_none with o.
  - intros m new Hm. unfold change_mjdref, getattr_at.
    rewrite Hself. cbn [bind]. unfold getattr, lookup. rewrite Hm.
    cbn [sub_mul bind]. rewrite (shift_gti_none h self o) by assumption.
    reflexivity.
Qed.

(** With a GTI array present, [shift] leaves every object of the
    store as it was and returns a new object that differs from the
    source in [time] and [gti] only, both moved by the shift. *)
Lemma shift_with_gti (h : heap) (self : ref) (o : instance)
  (t : list Q) (g : list (Q * Q)) (s : Q) :
  deref h self = Ok o ->
  assoc o "time" = Some (VArr t) ->
  assoc o "gti" = Some (VArr2 g) ->
  shift h self (VNum s)
  = Ok (List.length h,
        h ++ [setattr (setattr o "time" (VArr (map (fun v => v + s) t)))
                "gti" (VArr2 (shifted_rows s g))]).
Proof.
  intros Hself Ht Hg. unfold shift, deepcopy, alloc.
  rewrite Hself. cbn [bind]. unfold getattr_at. rewrite deref_alloc. cbn [bind].
  unfold getattr, lookup. rewrite Ht. cbn [bind asarray_add asarray add_numeric of_numeric].
  rewrite setattr_at_alloc. cbn [bind]. rewrite deref_alloc. cbn [bind].
  unfold hasattr, lookup. rewrite assoc_setattr_neq, Hg by discriminate.
  cbn [bind asarray_add asarray add_numeric of_numeric].
  rewrite setattr_at_alloc. reflexivity.
Qed.

(** In exact arithmetic: shifting forth and back gives the numbers
    one started from. *)
Lemma shift_there_and_back (h : heap) (self : ref) (o : instance)
  (t : list Q) (g : list (Q * Q)) (s : Q) :
  deref h self = Ok o ->
  assoc o "time" = Some (VArr t) ->
  assoc o "gti" = Some (VArr2 g) ->
  exists r1 h1 r2 h2 o2 t2 g2,
    shift h self (VNum s) = Ok (r1, h1)
    /\ shift h1 r1 (VNum (- s)) = Ok (r2, h2)
    /\ deref h2 self = Ok o
    /\ deref h2 r2 = Ok o2
    /\ assoc o2 "time" = Some (VArr t2) /\ Forall2 Qeq t2 t
    /\ assoc o2 "gti" = Some (VArr2 g2)
    /\ Forall2 (fun a b => fst a == fst b /\ snd a == snd b) g2 g.
Proof.
  intros Hself Ht Hg.
  pose proof (shift_with_gti h self o t g s Hself Ht Hg) as H1.
  set (o1 := setattr (setattr o "time" _) "gti" _) in H1.
  assert (assoc o1 "time" = Some (VArr (map (fun v => v + s) t))) as Ht1.
  { unfold o1. rewrite assoc_setattr_neq by discriminate. apply assoc_setattr_eq. }
  assert (assoc o1 "gti" = Some (VArr2 (shifted_rows s g))) as Hg1.
  { unfold o1. apply assoc_setattr_eq. }
  pose proof (shift_with_gti (h ++ [o1]) (List.length h) o1 _ _ (- s)
                (deref_alloc h o1) Ht1 Hg1) as H2.
  do 7 eexists. split; [exact H1|]. split; [exact H2|].
  split; [do 2 apply deref_alloc_old; exact Hself|].
  split; [apply deref_alloc|].
  split; [rewrite assoc_setattr_neq by discriminate; apply assoc_setattr_eq|].
  split.
  { rewrite map_map. clear. induction t; simpl; constructor; [lra | assumption]. }
  split; [apply assoc_setattr_eq|].
  unfold shifted_rows. rewrite map_map. clear.
  induction g as [|[a b] g IH]; simpl; constructor; [|assumption].
  simpl. split; lra.
Qed.

(** C5: the series [StingrayTimeseries(time=[1, 2, 3])] has the
    attribute [gti], holding [None]; [shift(10)] on it raises
    TypeError and returns no copy. *)
Theorem shift_default_series_raises :
  assoc Examples.ts_plain "time" = Some (VArr [1; 2; 3])
  /\ assoc Examples.ts_plain "gti" = Some VNone
  /\ hasattr Examples.ts_plain "gti" = true
  /\ shift [Examples.ts_plain] 0%nat (VNum 10) = Raise TypeError.
Proof. repeat split. Qed.

End Shift.

(** ** Claims on apply_mask and split_by_gti *)

Section Masking.

Import Val Base.

Lemma select_all_true {A : Type} (a : list A) :
  select (repeat true (List.length a)) a = a.
Proof. induction a as [|x a IH]; simpl; [reflexivity | now rewrite IH]. Qed.

Lemma getitem_same_length (a : list Q) (mask : list bool) :
  List.length mask = List.length a ->
  getitem_mask (VArr a) mask = Ok (VArr (select mask a)).
Proof.
  intros H. unfold getitem_mask. destruct mask as [|b m]; [reflexivity|].
  now rewrite H, Nat.eqb_refl.
Qed.

Lemma getitem_all_true (a : list Q) (n : nat) :
  List.length a = n -> getitem_mask (VArr a) (repeat true n) = Ok (VArr a).
Proof.
  intros <-. rewrite getitem_same_length by apply repeat_length.
  now rewrite select_all_true.
Qed.

Lemma str_in_In (a : string) (l : list string) : In a l -> Py.str_in a l = true.
Proof.
  intros H. unfold Py.str_in. apply existsb_exists.
  exists a. split; [exact H | apply String.eqb_refl].
Qed.

Lemma foldM_const {A S : Type} (f : S -> A -> result S) (l : list A) (s : S) :
  (forall a, In a l -> f s a = Ok s) -> foldM f l s = Ok s.
Proof.
  induction l as [|a l IH]; intros H; simpl; [reflexivity|].
  rewrite (H a (or_introl eq_refl)). cbn [bind].
  apply IH. intros b Hb. apply H. now right.
Qed.

Lemma assoc_In (l : list (string * value)) (n : string) (v : value) :
  assoc l n = Some v -> In v (map snd l).
Proof.
  induction l as [|[k w] l IH]; simpl; [discriminate|].
  destruct (String.eqb k n); [intros [= <-]; now left | intros H; right; auto].
Qed.

(** The class holds no array: an array attribute is in [__dict__]. *)
Lemma lookup_array (o : instance) (n : string) (a : list Q) :
  lookup o n = Some (VArr a) -> assoc o n = Some (VArr a).
Proof.
  unfold lookup. destruct (assoc o n); [trivial|].
  intros H. apply assoc_In in H. exfalso.
  vm_compute in H. repeat (destruct H as [H|H]; [discriminate H|]). exact H.
Qed.

Lemma setattr_same (o : instance) (n : string) (v : value) :
  assoc o n = Some v -> setattr o n v = o.
Proof.
  induction o as [|[k w] o IH]; simpl; [discriminate|].
  destruct (String.eqb k n) eqn:E.
  - intros [= ->]. reflexivity.
  - intros H. now rewrite IH.
Qed.

Lemma update_same (h : heap) (r : ref) (o : instance) :
  deref h r = Ok o -> update h r o = h.
Proof.
  unfold deref. revert r. induction h as [|x h IH]; intros [|r]; simpl;
    try discriminate.
  - now intros [= ->].
  - intros H. now rewrite IH.
Qed.

Section AllTrue.

Variables (h : heap) (self : ref) (o : instance) (t : list Q).
Hypothesis Hself : deref h self = Ok o.
Hypothesis Hmain : lookup o "main_array_attr" = Some (VStr "time").
Hypothesis Htime : assoc o "time" = Some (VArr t).
Hypothesis Hnolist :
  forall n l, lookup o n = Some (VList l) -> List.length l <> List.length t.

Local Abbreviation is_array := (Base.is_array o t).

Lemma time_is_array : is_array "time".
Proof. exists t. unfold lookup. now rewrite Htime. Qed.

Lemma array_attrs_run :
  array_attrs o
  = Ok (filter
          (fun attr =>
             match lookup o attr with
             | Some v => iterable v && shape_eqb (shape v) [List.length t]
             | None => false
             end)
          (dir o)).
Proof.
  unfold array_attrs, getattr. rewrite Hmain. cbn [bind].
  unfold lookup at 1. rewrite Htime. reflexivity.
Qed.

Lemma array_attrs_are_arrays (arrays : list string) :
  array_attrs o = Ok arrays -> Forall is_array arrays.
Proof.
  rewrite array_attrs_run. intros [= <-]. apply Forall_forall. intros n Hn.
  apply filter_In in Hn as [_ Hn].
  destruct (lookup o n) as [v|] eqn:E; [|discriminate].
  apply andb_true_iff in Hn as [_ Hs]. unfold shape_eqb in Hs.
  destruct (list_eq_dec Nat.eq_dec (shape v) [List.length t]) as [Hsh|]; [|discriminate].
  destruct v; simpl in Hsh; try discriminate.
  - injection Hsh as Hl. exfalso. exact (Hnolist n l E Hl).
  - injection Hsh as Hl. now exists a.
Qed.

Lemma filtered_are_arrays (arrays : list string) :
  Forall is_array arrays ->
  Forall is_array
    (if Py.str_in "time" arrays then arrays else arrays ++ ["time"%string]).
Proof.
  intros H. destruct (Py.str_in "time" arrays); [exact H|].
  apply Forall_app. split; [exact H|]. constructor; [apply time_is_array | constructor].
Qed.

Lemma self_allocated : (self < List.length h)%nat.
Proof.
  unfold deref in Hself. apply nth_error_Some.
  destruct (nth_error h self); [discriminate | discriminate Hself].
Qed.

(** Copying attributes of the source, masked by [F] or not, into the
    new object at the end of the store. *)
Lemma copy_attrs (F : value -> result value) (names : list string) (d : instance)
  (done : list string) :
  (forall n, In n names -> exists v, lookup o n = Some v /\ F v = Ok v) ->
  (forall n, In n done -> assoc d n = lookup o n) ->
  exists d',
    foldM (fun h' attr =>
             v <- getattr_at h' self attr ;;
             v <- F v ;;
             setattr_at h' (List.length h) attr v)
      names (h ++ [d])
    = Ok (h ++ [d'])
    /\ (forall n, In n (names ++ done) -> assoc d' n = lookup o n).
Proof.
  revert d done. induction names as [|a names IH]; intros d done Hnames Hdone.
  - exists d. split; [reflexivity | exact Hdone].
  - destruct (Hnames a (or_introl eq_refl)) as (v & Hv & HF).
    cbn [foldM]. unfold getattr_at at 1.
    rewrite (deref_alloc_old h d o self Hself). cbn [bind].
    unfold getattr. rewrite Hv. cbn [bind]. rewrite HF. cbn [bind].
    rewrite setattr_at_alloc. cbn [bind].
    destruct (IH (setattr d a v) (a :: done)) as (d' & Hrun & Hd').
    + intros n Hn. apply Hnames. now right.
    + intros n [<-|Hn].
      * rewrite assoc_setattr_eq. now rewrite Hv.
      * destruct (string_dec a n) as [<-|Hne].
        -- rewrite assoc_setattr_eq. now rewrite Hv.
        -- rewrite assoc_setattr_neq by exact Hne. now apply Hdone.
    + exists d'. split; [exact Hrun|].
      intros n Hn. apply Hd'. apply in_app_or in Hn as [[<-|Hn]|Hn].
      * apply in_or_app. right. now left.
      * apply in_or_app. now left.
      * apply in_or_app. right. now right.
Qed.

Lemma meta_attrs_defined (metas : list string) :
  meta_attrs o = Ok metas ->
  forall n, In n metas -> exists v, lookup o n = Some v /\ Ok v = Ok v.
Proof.
  unfold meta_attrs. rewrite array_attrs_run. cbn [bind]. intros [= <-] n Hn.
  apply filter_In in Hn as [_ Hn]. apply andb_true_iff in Hn as [_ Hn].
  destruct (lookup o n) as [v|]; [|discriminate]. now exists v.
Qed.

(** An all-True mask, in place: the object is returned as it was. *)
Lemma apply_mask_all_true_inplace :
  apply_mask h self (repeat true (List.length t)) true None = Ok (self, h).
Proof.
  unfold apply_mask. rewrite Hself. cbn [bind].
  destruct (array_attrs o) as [arrays|] eqn:Ea;
    [|rewrite array_attrs_run in Ea; discriminate].
  cbn [bind].
  pose proof (filtered_are_arrays arrays (array_attrs_are_arrays arrays Ea)) as Hf.
  set (filtered := if Py.str_in "time" arrays then arrays else arrays ++ _) in *.
  rewrite foldM_const.
  2:{ intros a Ha. now rewrite (str_in_In a filtered Ha). }
  cbn [bind]. rewrite foldM_const; [reflexivity|].
  intros a Ha. rewrite Forall_forall in Hf. destruct (Hf a Ha) as (v & Hv & Hlen).
  unfold getattr_at. rewrite Hself. cbn [bind]. unfold getattr. rewrite Hv. cbn [bind].
  rewrite (getitem_all_true v _ Hlen). cbn [bind].
  unfold setattr_at. rewrite Hself. cbn [bind].
  rewrite (setattr_same o a (VArr v) (lookup_array o a v Hv)).
  now rewrite update_same.
Qed.

(** An all-True mask, out of place: the store keeps its objects and
    gains one, which agrees with the source on every array attribute
    and every meta attribute. *)
Lemma apply_mask_all_true_copy :
  exists new arrays metas,
    apply_mask h self (repeat true (List.length t)) false None
    = Ok (List.length h, h ++ [new])
    /\ array_attrs o = Ok arrays
    /\ meta_attrs o = Ok metas
    /\ same_attrs (arrays ++ metas) o new.
Proof.
  unfold apply_mask. rewrite Hself. cbn [bind].
  destruct (array_attrs o) as [arrays|] eqn:Ea;
    [|rewrite array_attrs_run in Ea; discriminate].
  cbn [bind].
  pose proof (filtered_are_arrays arrays (array_attrs_are_arrays arrays Ea)) as Hf.
  set (filtered := if Py.str_in "time" arrays then arrays else arrays ++ _) in *.
  destruct init_default as [fresh|] eqn:Ei; [|discriminate Ei].
  cbn [bind]. unfold alloc.
  destruct (meta_attrs o) as [metas|] eqn:Em.
  2:{ unfold meta_attrs in Em. rewrite Ea in Em. discriminate Em. }
  cbn [bind].
  destruct (copy_attrs (fun v => Ok v) metas fresh [] (meta_attrs_defined metas Em))
    as (d1 & Hrun1 & Hd1); [intros n []|].
  cbn [bind] in Hrun1. rewrite Hrun1. cbn [bind].
  destruct (copy_attrs (fun v => getitem_mask v (repeat true (List.length t)))
              filtered d1 (metas ++ [])) as (d2 & Hrun2 & Hd2).
  { intros n Hn. rewrite Forall_forall in Hf. destruct (Hf n Hn) as (a & Ha & Hlen).
    exists (VArr a). split; [exact Ha | now apply getitem_all_true]. }
  { exact Hd1. }
  rewrite Hrun2. cbn [bind].
  exists d2, arrays, metas. repeat split.
  apply Forall_forall. intros n Hn.
  assert (In n (filtered ++ metas ++ [])) as Hin.
  { rewrite app_nil_r. apply in_app_or in Hn as [Hn|Hn]; apply in_or_app; [left | now right].
    unfold filtered. destruct (Py.str_in "time" arrays); [exact Hn|].
    apply in_or_app. now left. }
  specialize (Hd2 n Hin). unfold lookup at 2. rewrite Hd2.
  destruct (lookup o n) as [v|] eqn:E; [reflexivity|].
  exfalso. apply in_app_or in Hn as [Hn|Hn].
  - pose proof (array_attrs_are_arrays arrays Ea) as Harr.
    rewrite Forall_forall in Harr. destruct (Harr n Hn) as (a & Ha & _). congruence.
  - destruct (meta_attrs_defined metas Em n Hn) as (v & Hv & _). congruence.
Qed.

End AllTrue.

(** On the docstring series without the list attribute, an all-True
    mask changes nothing in place, and out of place gives a new object
    that agrees with the source on every array and meta attribute. *)
Lemma apply_mask_all_true_arrays :
  array_attrs Examples.ts_doc = Ok ["counts"; "time"]%string
  /\ apply_mask [Examples.ts_doc] 0%nat [true; true; true] true None
     = Ok (0%nat, [Examples.ts_doc])
  /\ exists new,
      apply_mask [Examples.ts_doc] 0%nat [true; true; true] false None
      = Ok (1%nat, [Examples.ts_doc; new])
      /\ forall arrays metas,
          array_attrs Examples.ts_doc = Ok arrays ->
          meta_attrs Examples.ts_doc = Ok metas ->
          same_attrs (arrays ++ metas) Examples.ts_doc new.
Proof.
  split; [reflexivity|]. split; [reflexivity|].
  eexists. split; [vm_compute; reflexivity|].
  intros arrays metas Ha Hm. vm_compute in Ha, Hm.
  injection Ha as <-. injection Hm as <-. vm_compute.
  repeat constructor.
Qed.

(** C4: on the series of the docstring of [apply_mask], whose
    attribute [bubuattr] is the list [222, 111, 333], the all-True mask
    of length 3 makes [apply_mask] raise TypeError, in place and out of
    place; the list is an array attribute and a list takes no mask. *)
Theorem apply_mask_list_attribute :
  array_attrs Examples.ts_doc_list = Ok ["bubuattr"; "counts"; "time"]%string
  /\ getitem_mask (VList [222; 111; 333]) [true; true; true] = Raise TypeError
  /\ apply_mask [Examples.ts_doc_list] 0%nat [true; true; true] false None
     = Raise TypeError
  /\ apply_mask [Examples.ts_doc_list] 0%nat [true; true; true] true None
     = Raise TypeError.
Proof. repeat split. Qed.

(** On the series with times 0, 1, 2, 3, 4, 10, 11 and the GTIs
    [0, 5) and [10, 12), [split_by_gti] with [min_points=2] returns two
    new series, in GTI order: the five samples of the first GTI with
    the GTI list [[0, 5]], and the two samples of the second with
    [[10, 12]]; the source is unchanged. *)
Lemma split_by_gti_example :
  exists seg1 seg2,
    split_by_gti [Examples.ts_gti] 0%nat None 2
    = Ok ([1%nat; 2%nat], [Examples.ts_gti; seg1; seg2])
    /\ lookup seg1 "time" = Some (VArr [0; 1; 2; 3; 4])
    /\ lookup seg1 "gti" = Some (VArr2 [(0, 5)])
    /\ lookup seg2 "time" = Some (VArr [10; 11])
    /\ lookup seg2 "gti" = Some (VArr2 [(10, 12)]).
Proof.
  do 2 eexists. split; [vm_compute; reflexivity|].
  repeat split.
Qed.

(** A segment with fewer than [min_points] samples is left out
    without an error. *)
Lemma split_by_gti_skips_short :
  exists seg1,
    split_by_gti [Examples.ts_gti] 0%nat None 3
    = Ok ([1%nat], [Examples.ts_gti; seg1])
    /\ lookup seg1 "gti" = Some (VArr2 [(0, 5)]).
Proof.
  eexists. split; [vm_compute; reflexivity|]. reflexivity.
Qed.

(** C3: on the same times and GTIs, with the keyword
    [counts=[1, 1, 1, 1, 1, 1, 1]] kept as a list, the first GTI holds
    five samples, and [split_by_gti] with [min_points=2] raises
    TypeError from [apply_mask] and returns no segment. *)
Theorem split_by_gti_list_attribute :
  lookup Examples.ts_gti_list "counts" = Some (VList [1; 1; 1; 1; 1; 1; 1])
  /\ array_attrs Examples.ts_gti_list = Ok ["counts"; "time"]%string
  /\ gti_border_bins [(0, 5); (10, 12)] [0; 1; 2; 3; 4; 10; 11] (VNum 0)
     = ([0; 5]%Z, [5; 7]%Z)
  /\ split_by_gti [Examples.ts_gti_list] 0%nat None 2 = Raise TypeError.
Proof. repeat split. Qed.

End Masking.

(** ** Claims on the complex columns of read and write *)

Section ComplexColumns.

Import Table.

(** A single complex column whose first element has an imaginary
    part: it is split on write and recombined on read. *)
Lemma one_complex_round_trip :
  exists written back,
    write Examples.one_complex None = Ok (Tabular None written)
    /\ colnames written = ["time"; "c.real"; "c.imag"]%string
    /\ read written None = Ok back
    /\ table_eq back Examples.one_complex.
Proof.
  do 2 eexists. split; [vm_compute; reflexivity|].
  split; [reflexivity|]. split; [vm_compute; reflexivity|].
  split.
  - repeat constructor; simpl; eexists; (split; [reflexivity|]); repeat constructor.
  - repeat constructor; discriminate.
Qed.

(** C1: two failures of the round trip.  With the complex columns
    [a] and [b], both are split on write, and on read [b] comes back as
    [[11j, 15j]] instead of [[5+6j, 7+8j]], for [fmt=None] and for
    [fmt="ascii"].  With [c = [1+0j, 2+3j]], whose first element has no
    imaginary part, write does not split [c]. *)
Theorem complex_columns_round_trip_fails :
  (exists written back,
      write Examples.two_complex None = Ok (Tabular None written)
      /\ write Examples.two_complex (Some "ascii"%string)
         = Ok (Tabular (Some "ascii.ecsv"%string) written)
      /\ colnames written = ["time"; "a.real"; "a.imag"; "b.real"; "b.imag"]%string
      /\ read written None = Ok back
      /\ read written (Some "ascii"%string) = Ok back
      /\ lookup back "a" = Some (Cplx [(1, 2); (3, 4)])
      /\ lookup back "b" = Some (Cplx [(0, 11); (0, 15)])
      /\ ~ table_eq back Examples.two_complex)
  /\ write Examples.real_first None = Ok (Tabular None Examples.real_first)
  /\ lookup Examples.real_first "c.real" = None.
Proof.
  split; [|split; reflexivity].
  do 2 eexists. split; [vm_compute; reflexivity|].
  split; [reflexivity|]. split; [reflexivity|].
  split; [vm_compute; reflexivity|]. split; [reflexivity|].
  split; [reflexivity|]. split; [reflexivity|].
  intros [H _].
  inversion H as [|? ? _ H1]; subst.
  inversion H1 as [|? ? _ H2]; subst.
  inversion H2 as [|? ? (c & Hc & Hb) _]; subst.
  simpl in Hc. injection Hc as <-.
  simpl in Hb. inversion Hb as [|? ? ? ? [Hre _] _]; subst.
  simpl in Hre. discriminate Hre.
Qed.

End ComplexColumns.

(** ** The general statements at sample inputs *)

Section Instances.

Import Val Base.

Lemma rebin_data_methods_witness :
  Utils.rebin_data (Examples.floats [0; 1; 2; 3]%Z) (Examples.floats [1; 1; 1; 1]%Z)
    (F64.of_Z 2) "median"
  = Raise UnrecognizedMethod.
Proof.
  apply (rebin_data_methods (Examples.floats [0; 1; 2; 3]%Z)
           (Examples.floats [1; 1; 1; 1]%Z) (F64.of_Z 2) "median"
           (F64.of_Z 0) (F64.of_Z 1) (F64.of_Z 2) (Examples.floats [2; 2]%Z)).
  vm_compute. reflexivity.
Defined.

Lemma rebin_data_step_size_witness :
  exists xbin ybin,
    Utils.rebin_data (Examples.floats [0; 1; 2; 3]%Z) (Examples.floats [1; 1; 1; 1]%Z)
      (F64.of_Z 2) "mean"
    = Ok (xbin, ybin, F64.div (F64.of_Z 2) (F64.sub (F64.of_Z 1) (F64.of_Z 0))).
Proof.
  apply (proj2 (proj2 (rebin_data_step_size (Examples.floats [0; 1; 2; 3]%Z)
                         (Examples.floats [1; 1; 1; 1]%Z) (Examples.floats [2; 3]%Z)
                         (F64.of_Z 0) (F64.of_Z 1) (F64.of_Z 2) "mean" eq_refl))
           (F64.of_Z 0) (F64.of_Z 1) (F64.of_Z 2) (Examples.floats [2; 2]%Z)).
  - vm_compute. reflexivity.
  - reflexivity.
Defined.

Lemma interpret_times_calendar_witness :
  interpret_times (Time (Array [57483; 57484])) 0
  = Ok (VArr (map (fun v => (v - 57483) * 86400) [57483; 57484]), 57483).
Proof.
  apply (proj2 (proj2 interpret_times_calendar)).
  repeat constructor.
Defined.

Lemma shift_without_gti_witness :
  shift [Examples.ts_plain] 0%nat (VNum 10) = Raise TypeError
  /\ change_mjdref [Examples.ts_plain] 0%nat 50000 = Raise TypeError.
Proof.
  destruct (shift_without_gti [Examples.ts_plain] 0%nat Examples.ts_plain) as [H1 H2].
  - reflexivity.
  - discriminate.
  - reflexivity.
  - split; [apply H1 | apply (H2 0); reflexivity].
Defined.

End Instances.

(** * Further properties *)

(** ** rebin_data: the mean and the sum *)

Section RebinMore.

Import F64 RebinParts.

(** X3: the mean is the sum over the step.  For each of the names
    of the mean, [rebin_data] does what it does for "sum": where "sum"
    raises, the mean raises the same exception; where "sum" returns,
    the mean returns the same bin positions and step, and the values of
    "sum" each divided by [step_size]. *)
Theorem rebin_mean_of_sum (x y : list float) (dx_new : float) (method : string) :
  In method Utils.mean_methods ->
  match Utils.rebin_data x y dx_new "sum" with
  | Ok (xbin, ybin, step_size) =>
      Utils.rebin_data x y dx_new method
      = Ok (xbin, map (fun t => div t step_size) ybin, step_size)
  | Raise e => Utils.rebin_data x y dx_new method = Raise e
  end.
Proof.
  intros Hin.
  assert (Py.str_in method Utils.mean_methods = true) as Hm.
  { unfold Py.str_in. apply existsb_exists. exists method.
    split; [exact Hin | apply String.eqb_refl]. }
  rewrite !rebin_data_parts.
  destruct (rebin_loop x y dx_new) as [[[[x0 dx_old] step_size] output]|e];
    [|reflexivity].
  cbn [bind]. unfold rebin_finish. rewrite Hm.
  change (Py.str_in "sum" Utils.mean_methods) with false.
  change ("sum" =? "sum")%string with true. cbn [bind].
  destruct (Py.index x (-1)) as [x_last|]; [|reflexivity]. cbn [bind].
  destruct (truediv _ dx_new) as [ratio|]; [|reflexivity]. cbn [bind].
  destruct (ltb (of_Z 0) (mod1 ratio)).
  - rewrite <- map_removelast, length_map. reflexivity.
  - rewrite length_map. reflexivity.
Qed.

End RebinMore.

(** ** contiguous_regions *)

Section Regions.

Lemma nonzero_diff (t : list bool) (c : bool) (i : nat) :
  map S (Utils.nonzero_from i (Utils.diff (c :: t))) = changes (S i) c t.
Proof.
  revert c i. induction t as [|b t IH]; intros c i; [reflexivity|].
  change (Utils.diff (c :: b :: t)) with (xorb b c :: Utils.diff (b :: t)).
  cbn [Utils.nonzero_from changes].
  destruct (xorb b c); cbn [map app]; now rewrite IH.
Qed.

Lemma last_cons_default {A : Type} (t : list A) (c prev : A) :
  last (c :: t) prev = last t c.
Proof.
  revert c prev. induction t as [|b t IH]; intros c prev; [reflexivity|].
  change (last (c :: b :: t) prev) with (last (b :: t) prev).
  now rewrite !IH.
Qed.

Lemma changes_app (l1 l2 : list bool) (off : nat) (prev : bool) :
  changes off prev (l1 ++ l2)
  = changes off prev l1 ++ changes (off + List.length l1) (last l1 prev) l2.
Proof.
  revert off prev. induction l1 as [|c t IH]; intros off prev.
  - simpl. now rewrite Nat.add_0_r.
  - cbn [app changes List.length]. rewrite IH, <- app_assoc.
    replace (S off + List.length t)%nat with (off + S (List.length t))%nat by lia.
    now rewrite last_cons_default.
Qed.

(** The index list of [contiguous_regions] is the list of changes of
    the condition closed by a False. *)
Lemma regions_index_list (c : bool) (t : list bool) :
  Utils.contiguous_regions (c :: t)
  = Utils.reshape_pairs (changes 0 false ((c :: t) ++ [false])).
Proof.
  unfold Utils.contiguous_regions.
  rewrite (index_nth (c :: t) 0 false) by (simpl List.length; lia).
  rewrite (index_last (c :: t) false) by discriminate.
  cbn [nth Z.to_nat bind]. rewrite nonzero_diff, changes_app.
  cbn [changes]. rewrite xorb_false_r, xorb_false_l, app_nil_r, Nat.add_0_l.
  set (lst := last (c :: t) false). clearbody lst.
  destruct c; destruct lst; cbn [app]; rewrite ?app_nil_r; reflexivity.
Qed.

Lemma covered_cons (a b : nat) (r : list (nat * nat)) (i : nat) :
  covered ((a, b) :: r) i <-> (a <= i < b)%nat \/ covered r i.
Proof.
  unfold covered. split.
  - intros (a' & b' & [[= <- <-]|Hin] & Hi); [now left | right; eauto].
  - intros [Hi|(a' & b' & Hin & Hi)]; [exists a, b | exists a', b']; split; auto;
      [now left | now right].
Qed.

Lemma covered_nil (i : nat) : ~ covered [] i.
Proof. intros (a & b & [] & _). Qed.

Lemma nth_error_cons_at (c : bool) (t : list bool) (off i : nat) :
  (off <= i)%nat ->
  nth_error (c :: t) (i - off) = Some true
  <-> (i = off /\ c = true) \/ (S off <= i /\ nth_error t (i - S off) = Some true)%nat.
Proof.
  intros Hi. destruct (Nat.eq_dec i off) as [->|Hne].
  - rewrite Nat.sub_diag. simpl. split.
    + intros [= ->]. now left.
    + intros [[_ ->]|[H _]]; [reflexivity | lia].
  - replace (i - off)%nat with (S (i - S off)) by lia. simpl. split.
    + intros H. right. split; [lia | exact H].
    + intros [[H _]|[_ H]]; [contradiction | exact H].
Qed.

(** Reading the changes two by two gives the runs of True, whether
    the sequence is entered outside a run or inside one opened at [s]. *)
Lemma regions_of_changes (l : list bool) :
  forall off,
    (exists r,
        Utils.reshape_pairs (changes off false (l ++ [false])) = Ok r
        /\ forall i, covered r i
                     <-> (off <= i)%nat /\ nth_error l (i - off) = Some true)
    /\ (forall s, (s <= off)%nat ->
          exists r,
            Utils.reshape_pairs (s :: changes off true (l ++ [false])) = Ok r
            /\ forall i, covered r i
                         <-> (s <= i < off)%nat
                             \/ ((off <= i)%nat /\ nth_error l (i - off) = Some true)).
Proof.
  induction l as [|c t IH]; intros off.
  - split.
    + exists []. split; [reflexivity|]. intros i. split.
      * intros H. now apply covered_nil in H.
      * intros [_ H]. destruct (i - off)%nat; discriminate.
    + intros s Hs. exists [(s, off)]. split; [reflexivity|]. intros i.
      rewrite covered_cons. split.
      * intros [H|H]; [now left | now apply covered_nil in H].
      * intros [H|[_ H]]; [now left | destruct (i - off)%nat; discriminate].
  - destruct (IH (S off)) as [(r0 & Hr0 & Hc0) IH1].
    split.
    + destruct c; cbn [app changes xorb].
      * destruct (IH1 off (Nat.le_succ_diag_r off)) as (r & Hr & Hc).
        exists r. split; [exact Hr|]. intros i. rewrite Hc. split.
        -- intros H. split; [lia|]. apply nth_error_cons_at; [lia|].
           destruct H as [H|[H1 H2]]; [left; split; [lia | reflexivity]|].
           right. now split.
        -- intros [H1 H2]. apply nth_error_cons_at in H2; [|exact H1].
           destruct H2 as [[-> _]|[H3 H4]]; [left; lia|].
           right. now split.
      * exists r0. split; [exact Hr0|]. intros i. rewrite Hc0. split.
        -- intros [H1 H2]. split; [lia|]. apply nth_error_cons_at; [lia|].
           right. now split.
        -- intros [H1 H2]. apply nth_error_cons_at in H2; [|exact H1].
           destruct H2 as [[_ H]|[H3 H4]]; [discriminate|]. now split.
    + intros s Hs. destruct c; cbn [app changes xorb].
      * destruct (IH1 s (Nat.le_le_succ_r _ _ Hs)) as (r & Hr & Hc).
        exists r. split; [exact Hr|]. intros i. rewrite Hc. split.
        -- intros [H|[H1 H2]].
           ++ destruct (Nat.eq_dec i off) as [->|Hne]; [|left; lia].
              right. split; [lia|]. apply nth_error_cons_at; [lia|].
              left. now split.
           ++ right. split; [lia|]. apply nth_error_cons_at; [lia|]. right. now split.
        -- intros [H|[H1 H2]]; [left; lia|].
           apply nth_error_cons_at in H2; [|exact H1].
           destruct H2 as [[-> _]|[H3 H4]]; [left; lia|].
           right. now split.
      * exists ((s, off) :: r0). split.
        { change (Utils.reshape_pairs (s :: off :: changes (S off) false (t ++ [false])))
            with (rows <- Utils.reshape_pairs (changes (S off) false (t ++ [false])) ;;
                  Ok ((s, off) :: rows)).
          now rewrite Hr0. }
        intros i. rewrite covered_cons, Hc0. split.
        -- intros [H|[H1 H2]]; [now left|].
           right. split; [lia|]. apply nth_error_cons_at; [lia|]. right. now split.
        -- intros [H|[H1 H2]]; [now left|].
           apply nth_error_cons_at in H2; [|exact H1].
           destruct H2 as [[_ H]|[H3 H4]]; [discriminate|]. right. now split.
Qed.

(** X6: [contiguous_regions] raises IndexError on an empty
    condition; on any other it returns index pairs [(start, stop)] such
    that the positions with [start <= i < stop] for one of the pairs are
    exactly the positions where the condition is True. *)
Theorem contiguous_regions_cover :
  Utils.contiguous_regions [] = Raise IndexError
  /\ forall condition : list bool,
      condition <> [] ->
      exists regions,
        Utils.contiguous_regions condition = Ok regions
        /\ forall i, covered regions i <-> nth_error condition i = Some true.
Proof.
  split; [reflexivity|].
  intros [|c t] Hne; [contradiction|].
  rewrite regions_index_list.
  destruct (regions_of_changes (c :: t) 0) as [(r & Hr & Hc) _].
  exists r. split; [exact Hr|]. intros i. rewrite Hc, Nat.sub_0_r.
  split; [now intros [_ H] | intros H; split; [lia | exact H]].
Qed.

Lemma changes_range (l : list bool) (off : nat) (prev : bool) (x : nat) :
  In x (changes off prev l) -> (off <= x < off + List.length l)%nat.
Proof.
  revert off prev. induction l as [|c t IH]; intros off prev; simpl; [intros []|].
  intros H. apply in_app_or in H as [H|H].
  - destruct (xorb c prev); [|destruct H]. destruct H as [<-|[]]. lia.
  - apply IH in H. lia.
Qed.

Lemma increasing_cons (a : nat) (l : list nat) :
  (forall x, In x l -> (a < x)%nat) -> increasing l -> increasing (a :: l).
Proof.
  intros H Hl. split; [|exact Hl]. destruct l; [trivial|]. apply H. now left.
Qed.

Lemma changes_increasing (l : list bool) (off : nat) (prev : bool) :
  increasing (changes off prev l).
Proof.
  revert off prev. induction l as [|c t IH]; intros off prev; [exact I|].
  cbn [changes]. destruct (xorb c prev); cbn [app]; [|apply IH].
  apply increasing_cons; [|apply IH].
  intros x Hx. apply changes_range in Hx. lia.
Qed.

Lemma reshape_bounds_two (idx : list nat) :
  (forall regions, Utils.reshape_pairs idx = Ok regions -> bounds regions = idx)
  /\ (forall a regions,
         Utils.reshape_pairs (a :: idx) = Ok regions -> bounds regions = a :: idx).
Proof.
  induction idx as [|b r [IH1 IH2]]; split.
  - now intros regions [= <-].
  - discriminate.
  - intros regions. apply IH2.
  - intros a regions.
    change (Utils.reshape_pairs (a :: b :: r))
      with (rows <- Utils.reshape_pairs r ;; Ok ((a, b) :: rows)).
    destruct (Utils.reshape_pairs r) as [rows|] eqn:E; [|discriminate].
    intros [= <-]. simpl. f_equal. f_equal. now apply IH1.
Qed.

Lemma reshape_bounds (idx : list nat) (regions : list (nat * nat)) :
  Utils.reshape_pairs idx = Ok regions -> bounds regions = idx.
Proof. apply reshape_bounds_two. Qed.

(** X7: the regions returned are the maximal runs, in order: their
    bounds [start0 < stop0 < start1 < stop1 < ...] increase strictly, so
    no region is empty and no two regions overlap or touch, and no bound
    exceeds the length of the condition. *)
Theorem contiguous_regions_ordered (condition : list bool)
  (regions : list (nat * nat)) :
  Utils.contiguous_regions condition = Ok regions ->
  increasing (bounds regions)
  /\ Forall (fun b => (b <= List.length condition)%nat) (bounds regions).
Proof.
  destruct condition as [|c t]; [discriminate|].
  rewrite regions_index_list. intros H. apply reshape_bounds in H. rewrite H.
  split; [apply changes_increasing|].
  apply Forall_forall. intros x Hx. apply changes_range in Hx.
  rewrite length_app in Hx. simpl in *. lia.
Qed.

End Regions.

(** ** look_for_array_in_array and order_list_of_arrays *)

Section Arrays.

Lemma contains_shared (array2 : list Q) (v : Q) :
  Utils.contains array2 v = true <-> shared array2 v.
Proof.
  unfold Utils.contains, shared. rewrite existsb_exists.
  split; intros (w & Hin & H); exists w; split; auto; now apply Qeq_bool_iff.
Qed.

(** X8: [look_for_array_in_array] returns the first entry of
    [array1] that equals an entry of [array2], and [None] exactly when
    the arrays share no value. *)
Theorem look_for_array_in_array_first (array1 array2 : list Q) :
  match Utils.look_for_array_in_array array1 array2 with
  | Some v =>
      exists before after,
        array1 = before ++ v :: after
        /\ shared array2 v
        /\ Forall (fun u => ~ shared array2 u) before
  | None => Forall (fun u => ~ shared array2 u) array1
  end.
Proof.
  unfold Utils.look_for_array_in_array.
  induction array1 as [|a t IH]; simpl; [constructor|].
  destruct (Utils.contains array2 a) eqn:E.
  - exists [], t. split; [reflexivity|]. split; [now apply contains_shared | constructor].
  - assert (~ shared array2 a) as Ha.
    { intros H. apply contains_shared in H. congruence. }
    destruct (find (Utils.contains array2) t) as [v|].
    + destruct IH as (before & after & -> & Hv & Hb).
      exists (a :: before), after. split; [reflexivity|]. split; [exact Hv|].
      now constructor.
    + now constructor.
Qed.

Lemma take_spec (value : list Q) (order : list Z) (taken : list Q) :
  Utils.take value order = Ok taken ->
  Forall2 (fun z v => Py.index value z = Ok v) order taken.
Proof.
  unfold Utils.take. revert taken. induction order as [|z order IH]; intros taken; simpl.
  - intros [= <-]. constructor.
  - destruct (Py.index value z) as [v|] eqn:E; [|discriminate]. cbn [bind].
    destruct (mapM (Py.index value) order) as [vs|]; [|discriminate]. cbn [bind].
    intros [= <-]. constructor; [exact E | now apply IH].
Qed.

(** X9: when [order_list_of_arrays] returns, a dict comes back as a
    dict with the same keys in the same order, a list as a list of the
    same length, anything else as [None]; and entry [k] of each array
    returned is the entry of the source array at index [order[k]]. *)
Theorem order_list_of_arrays_reads (data : Utils.arrays) (order : list Z)
  (result : option Utils.arrays) :
  Utils.order_list_of_arrays data order = Ok result ->
  reordered order data result.
Proof.
  destruct data as [d|l|]; simpl.
  - destruct (mapM _ d) as [d'|] eqn:E; [|discriminate]. cbn [bind].
    intros [= <-]. simpl. revert d' E.
    induction d as [|[k v] d IH]; intros d'; simpl.
    + intros [= <-]. constructor.
    + destruct (Utils.take v order) as [v'|] eqn:Ev; [|discriminate]. cbn [bind].
      destruct (mapM _ d) as [r|]; [|discriminate]. cbn [bind].
      intros [= <-]. constructor; [|now apply IH].
      split; [reflexivity | now apply take_spec].
  - destruct (mapM _ l) as [l'|] eqn:E; [|discriminate]. cbn [bind].
    intros [= <-]. simpl. revert l' E.
    induction l as [|v l IH]; intros l'; simpl.
    + intros [= <-]. constructor.
    + destruct (Utils.take v order) as [v'|] eqn:Ev; [|discriminate]. cbn [bind].
      destruct (mapM _ l) as [r|]; [|discriminate]. cbn [bind].
      intros [= <-]. constructor; [now apply take_spec | now apply IH].
  - now intros [= <-].
Qed.

Lemma take_identity (value : list Q) :
  Utils.take value (map Z.of_nat (seq 0 (List.length value))) = Ok value.
Proof.
  unfold Utils.take.
  assert (forall pre l : list Q, mapM (Py.index (pre ++ l))
                          (map Z.of_nat (seq (List.length pre) (List.length l)))
                        = Ok l) as H.
  { intros pre l. revert pre. induction l as [|v l IH]; intros pre; [reflexivity|].
    cbn [List.length seq map mapM].
    rewrite (index_nth (pre ++ v :: l) _ 0) by (rewrite length_app; simpl; lia).
    rewrite Nat2Z.id, app_nth2, Nat.sub_diag by lia. cbn [nth bind].
    specialize (IH (pre ++ [v])). rewrite <- app_assoc in IH. cbn [app] in IH.
    rewrite length_app in IH. cbn [List.length] in IH.
    rewrite Nat.add_1_r in IH. rewrite IH. reflexivity. }
  apply (H [] value).
Qed.

(** X10: ordering by the indices [0, 1, ..., n-1] returns the data
    as they are, when every array has [n] entries. *)
Theorem order_list_of_arrays_identity (data : Utils.arrays) (n : nat) :
  match data with
  | Utils.DictOf d => Forall (fun kv => List.length (snd kv) = n) d
  | Utils.ListOf l => Forall (fun a => List.length a = n) l
  | Utils.NotIterable => False
  end ->
  Utils.order_list_of_arrays data (map Z.of_nat (seq 0 n)) = Ok (Some data).
Proof.
  destruct data as [d|l|]; simpl; [| |intros []].
  - intros H. assert (mapM (fun kv => v <- Utils.take (snd kv) (map Z.of_nat (seq 0 n)) ;;
                                       Ok (fst kv, v)) d = Ok d) as ->; [|reflexivity].
    induction H as [|[k v] d Hv _ IH]; [reflexivity|]. simpl in *.
    rewrite <- Hv at 1. rewrite take_identity. cbn [bind]. now rewrite IH.
  - intros H. assert (mapM (fun i => Utils.take i (map Z.of_nat (seq 0 n))) l = Ok l) as ->;
      [|reflexivity].
    induction H as [|v l Hv _ IH]; [reflexivity|]. simpl.
    rewrite <- Hv at 1. rewrite take_identity. cbn [bind]. now rewrite IH.
Qed.

End Arrays.

(** ** interpret_times and the constructor *)

Section Construction.

Import Val Base.

(** X11: the epoch given is returned unchanged, unless the input is
    a calendar time and the epoch is 0: an explicit epoch is never
    replaced, and durations, quantities, sequences and numbers never
    set one. *)
Theorem interpret_times_keeps_epoch (time : TTime) (mjdref : Q)
  (out_times : value) (epoch : Q) :
  (~ mjdref == 0 \/ forall mjds, time <> Time mjds) ->
  interpret_times time mjdref = Ok (out_times, epoch) ->
  epoch = mjdref.
Proof.
  intros H. destruct time; simpl; try (intros [= _ <-]; reflexivity); try discriminate.
  destruct H as [H|H]; [|now destruct (H mjd)].
  destruct (Qeq_bool mjdref 0) eqn:E; [apply Qeq_bool_iff in E; contradiction|].
  cbn [bind]. now intros [= _ <-].
Qed.

(** X12: an empty array of calendar times with the default epoch
    raises IndexError, since no first value exists to take the epoch
    from; with an explicit epoch it passes and stays empty. *)
Theorem interpret_times_empty_calendar (mjdref : Q) :
  (mjdref == 0 -> interpret_times (Time (Array [])) mjdref = Raise IndexError)
  /\ (~ mjdref == 0 -> interpret_times (Time (Array [])) mjdref = Ok (VArr [], mjdref)).
Proof.
  split; intros H; simpl.
  - apply Qeq_bool_iff in H. now rewrite H.
  - destruct (Qeq_bool mjdref 0) eqn:E; [apply Qeq_bool_iff in E; contradiction|].
    reflexivity.
Qed.

Lemma set_array_attrs_sizes (attrs : list (string * list Q)) (self o : instance) :
  attrs <> [] ->
  set_array_attrs self attrs = Ok o ->
  exists time n,
    getattr o "time" = Ok time
    /\ size time = Ok n
    /\ Forall (fun kv => List.length (snd kv) = n) attrs.
Proof.
  revert self. induction attrs as [|[kw l] rest IH]; intros self Hne; [contradiction|].
  cbn [set_array_attrs].
  destruct (getattr self "time") as [time|] eqn:Et; [|discriminate]. cbn [bind].
  destruct (size time) as [n|] eqn:En; [|discriminate]. cbn [bind size].
  destruct (Nat.eqb_spec n (List.length l)) as [Hn|]; [|discriminate].
  assert (exists time', getattr (setattr self kw (VArr l)) "time" = Ok time'
                        /\ size time' = Ok n) as (time' & Et' & En').
  { unfold getattr, lookup in *. destruct (string_dec kw "time") as [->|Hkw].
    - rewrite assoc_setattr_eq. exists (VArr l). split; [reflexivity|].
      simpl. now rewrite Hn.
    - rewrite assoc_setattr_neq by exact Hkw. now exists time. }
  destruct rest as [|kv rest'].
  - intros [= <-]. exists time', n. repeat split; auto.
  - intros H. destruct (IH _ ltac:(discriminate) H) as (t2 & n2 & Ht2 & Hn2 & Hall).
    assert (n2 = n) as ->.
    { destruct kv as [kw2 l2]. cbn [set_array_attrs] in H.
      rewrite Et' in H. cbn [bind] in H. rewrite En' in H. cbn [bind size] in H.
      destruct (Nat.eqb_spec n (List.length l2)) as [Hn'|]; [|discriminate].
      apply Forall_inv in Hall. simpl in Hall. lia. }
    exists t2, n. repeat split; auto.
Qed.

(** X13: when the constructor returns and arrays were passed in
    [array_attrs], the series has a [time] array and every array passed
    has as many entries as [time] has elements. *)
Theorem init_array_sizes (time : option TTime) (array_attrs : list (string * list Q))
  (mjdref : Q) (notes : string) (gti : option (list (Q * Q))) (high_precision : bool)
  (ephem timeref timesys : option string) (other_kw : list (string * value))
  (o : instance) :
  array_attrs <> [] ->
  init time array_attrs mjdref notes gti high_precision ephem timeref timesys other_kw
  = Ok o ->
  exists tv n,
    getattr o "time" = Ok tv
    /\ size tv = Ok n
    /\ Forall (fun kv => List.length (snd kv) = n) array_attrs.
Proof.
  intros Hne. unfold init.
  destruct (match time with Some _ => _ | None => _ end) as [self|]; [|discriminate].
  cbn [bind]. now apply set_array_attrs_sizes.
Qed.

(** X14: arrays passed in [array_attrs] without [time] make the
    constructor raise AttributeError: the size of [None] is asked
    for. *)
Theorem init_arrays_without_time (array_attrs : list (string * list Q))
  (mjdref : Q) (notes : string) (gti : option (list (Q * Q))) (high_precision : bool)
  (ephem timeref timesys : option string) (other_kw : list (string * value)) :
  array_attrs <> [] ->
  ~ In "time"%string (map fst other_kw) ->
  init None array_attrs mjdref notes gti high_precision ephem timeref timesys other_kw
  = Raise AttributeError.
Proof.
  intros Hne Hkw. unfold init. cbn [bind].
  set (base := setattr (setattr (setattr _ "_mask" _) "dt" _) "time" VNone).
  set (kws := filter _ other_kw).
  assert (~ In "time"%string (map fst kws)) as Hkws.
  { intros H. apply Hkw. apply in_map_iff in H as (kv & <- & Hin).
    apply filter_In in Hin as [Hin _]. now apply in_map. }
  destruct array_attrs as [|[kw l] rest]; [contradiction|].
  cbn [set_array_attrs]. unfold getattr, lookup.
  rewrite fold_setattr_other by exact Hkws.
  unfold base. rewrite assoc_setattr_eq. reflexivity.
Qed.

(** X15: the constructor stores the epoch it was given, not the one
    [interpret_times] derives.  For a calendar time above MJD 10000 and
    the default epoch, [time] holds the offsets from the first MJD value
    while [mjdref] stays 0. *)
Theorem init_keeps_given_epoch (mjds : list Q) (m : Q) (notes : string)
  (gti : option (list (Q * Q))) (high_precision : bool)
  (ephem timeref timesys : option string) :
  Forall (fun v => 10000 < v) (m :: mjds) ->
  exists o,
    init (Some (Time (Array (m :: mjds)))) [] 0 notes gti high_precision
      ephem timeref timesys [] = Ok o
    /\ interpret_times (Time (Array (m :: mjds))) 0
       = Ok (VArr (map (fun v => (v - m) * 86400) (m :: mjds)), m)
    /\ assoc o "time" = Some (VArr (map (fun v => (v - m) * 86400) (m :: mjds)))
    /\ assoc o "mjdref" = Some (VNum 0).
Proof.
  intros Hall.
  assert (interpret_times (Time (Array (m :: mjds))) 0
          = Ok (VArr (map (fun v => (v - m) * 86400) (m :: mjds)), m)) as Hit.
  { unfold interpret_times. change (Qeq_bool 0 0) with true. cbv iota.
    assert (forallb (fun v => Py.Qltb 10000 v) (m :: mjds) = true) as ->.
    { apply forallb_forall. intros v Hv.
      rewrite Forall_forall in Hall. apply Qltb_lt. now apply Hall. }
    rewrite (index_nth (m :: mjds) 0 0) by (simpl List.length; lia).
    reflexivity. }
  unfold init. rewrite Hit. cbn [bind ndarray asarray size fold_left filter set_array_attrs].
  eexists. split; [reflexivity|]. split; [reflexivity|].
  split; [|reflexivity].
  rewrite assoc_setattr_neq by discriminate. apply assoc_setattr_eq.
Qed.

End Construction.

(** ** array_attrs, meta_attrs and get_meta_dict *)

Section Reflection.

Import Val Base.

Lemma In_insert_sorted (s x : string) (l : list string) :
  In x (Str.insert_sorted s l) <-> x = s \/ In x l.
Proof.
  induction l as [|t r IH]; simpl; [intuition|].
  destruct (String.eqb s t) eqn:E.
  - apply String.eqb_eq in E. subst t. simpl. intuition.
  - destruct (String.ltb s t); simpl; [intuition|].
    rewrite IH. intuition.
Qed.

Lemma In_sort_unique (x : string) (l : list string) :
  In x (Str.sort_unique l) <-> In x l.
Proof.
  unfold Str.sort_unique. induction l as [|s l IH]; simpl; [reflexivity|].
  rewrite In_insert_sorted, IH. intuition.
Qed.

Lemma assoc_In_fst (l : list (string * value)) (n : string) (v : value) :
  assoc l n = Some v -> In n (map fst l).
Proof.
  induction l as [|[k w] l IH]; simpl; [discriminate|].
  destruct (String.eqb k n) eqn:E; [apply String.eqb_eq in E; now left | right; auto].
Qed.

(** An attribute that can be read is listed by [dir]. *)
Lemma lookup_dir (o : instance) (n : string) (v : value) :
  lookup o n = Some v -> In n (dir o).
Proof.
  unfold lookup, dir. intros H. apply In_sort_unique, in_or_app.
  destruct (assoc o n) eqn:E; [left | right]; eapply assoc_In_fst; eauto.
Qed.

(** X16: the two lists part the data attributes.  An attribute that
    is public, not callable and not a StingrayObject is listed by
    exactly one of [array_attrs] and [meta_attrs]; and no name listed by
    [meta_attrs] is private, callable, a StingrayObject or an array
    attribute. *)
Theorem attrs_partition (o : instance) (arrays metas : list string) :
  array_attrs o = Ok arrays ->
  meta_attrs o = Ok metas ->
  (forall n v,
      lookup o n = Some v ->
      Str.startswith n "_" = false -> callable v = false -> has_meta_attrs v = false ->
      (In n arrays /\ ~ In n metas) \/ (In n metas /\ ~ In n arrays))
  /\ (forall n, In n metas ->
        ~ In n arrays
        /\ Str.startswith n "_" = false
        /\ exists v, lookup o n = Some v /\ callable v = false /\ has_meta_attrs v = false).
Proof.
  intros Ha Hm. unfold meta_attrs in Hm. rewrite Ha in Hm. cbn [bind] in Hm.
  injection Hm as <-.
  assert (forall n, Py.str_in n arrays = true <-> In n arrays) as Hin.
  { intros n. split; [|apply str_in_In].
    unfold Py.str_in. rewrite existsb_exists. intros (x & Hx & E).
    apply String.eqb_eq in E. now subst. }
  split.
  - intros n v Hv Hpub Hcall Hser.
    destruct (Py.str_in n arrays) eqn:E.
    + left. split; [now apply Hin|]. intros H. apply filter_In in H as [_ H].
      rewrite E in H. discriminate.
    + right. split.
      * apply filter_In. split; [now apply lookup_dir with v|].
        now rewrite E, Hpub, Hv, Hcall, Hser.
      * intros H. apply Hin in H. congruence.
  - intros n Hn. apply filter_In in Hn as [_ Hn].
    apply andb_true_iff in Hn as [Hn Hv]. apply andb_true_iff in Hn as [Hn1 Hn2].
    apply negb_true_iff in Hn1, Hn2.
    split; [intros H; apply Hin in H; congruence|]. split; [exact Hn2|].
    destruct (lookup o n) as [v|]; [|discriminate]. exists v.
    apply andb_true_iff in Hv as [H1 H2]. apply negb_true_iff in H1, H2. auto.
Qed.

(** X17: a series whose [time] is [None] has no array attribute,
    whatever else it holds; every public data attribute, arrays and
    [time] itself included, is then a meta attribute. *)
Theorem no_time_no_arrays (o : instance) :
  lookup o "main_array_attr" = Some (VStr "time") ->
  assoc o "time" = Some VNone ->
  array_attrs o = Ok []
  /\ exists metas,
      meta_attrs o = Ok metas
      /\ In "time"%string metas
      /\ forall n v,
          lookup o n = Some v ->
          Str.startswith n "_" = false -> callable v = false ->
          has_meta_attrs v = false -> In n metas.
Proof.
  intros Hmain Htime.
  assert (lookup o "time" = Some VNone) as Hl by (unfold lookup; now rewrite Htime).
  assert (array_attrs o = Ok []) as Ha.
  { unfold array_attrs, getattr. rewrite Hmain. cbn [bind]. now rewrite Hl. }
  split; [exact Ha|].
  unfold meta_attrs. rewrite Ha. cbn [bind]. eexists. split; [reflexivity|].
  assert (forall n v, lookup o n = Some v -> Str.startswith n "_" = false ->
                      callable v = false -> has_meta_attrs v = false ->
                      In n (filter (fun attr =>
                        negb (Py.str_in attr []) && negb (Str.startswith attr "_")
                        && match lookup o attr with
                           | Some attr_value =>
                               negb (callable attr_value)
                               && negb (has_meta_attrs attr_value)
                           | None => false
                           end) (dir o))) as H.
  { intros n v Hv Hpub Hcall Hser. apply filter_In.
    split; [now apply lookup_dir with v|].
    now rewrite Hpub, Hv, Hcall, Hser. }
  split; [|exact H]. now apply (H "time"%string VNone).
Qed.

Lemma get_meta_dict_run (o : instance) (names : list string)
  (acc : list (string * value)) :
  (forall n, In n names -> lookup o n <> None) ->
  foldM (fun meta_dict key =>
           val <- getattr o key ;;
           if is_none val then Ok meta_dict else Ok (meta_dict ++ [(key, val)]))
    names acc
  = Ok (acc ++ meta_items o names).
Proof.
  revert acc. induction names as [|k names IH]; intros acc H; simpl.
  - now rewrite app_nil_r.
  - unfold getattr at 1. destruct (lookup o k) as [v|] eqn:E;
      [|exfalso; apply (H k); [now left | exact E]].
    cbn [bind]. destruct (is_none v); cbn [bind app].
    + apply IH. intros n Hn. apply H. now right.
    + rewrite IH by (intros n Hn; apply H; now right). now rewrite <- app_assoc.
Qed.

(** X18: [get_meta_dict] returns whenever [meta_attrs] does, and its
    entries are exactly the meta attributes whose value is not [None],
    each with the value the object holds. *)
Theorem get_meta_dict_entries (o : instance) (metas : list string) :
  meta_attrs o = Ok metas ->
  exists meta_dict,
    get_meta_dict o = Ok meta_dict
    /\ forall key val,
        In (key, val) meta_dict
        <-> In key metas /\ lookup o key = Some val /\ val <> VNone.
Proof.
  intros Hm. unfold get_meta_dict. rewrite Hm. cbn [bind].
  rewrite get_meta_dict_run.
  2:{ intros n Hn. unfold meta_attrs in Hm.
      destruct (array_attrs o); [|discriminate]. cbn [bind] in Hm.
      injection Hm as <-. apply filter_In in Hn as [_ Hn].
      apply andb_true_iff in Hn as [_ Hn]. destruct (lookup o n); [discriminate | discriminate Hn]. }
  eexists. split; [reflexivity|]. cbn [app].
  intros key val. unfold meta_items. rewrite in_flat_map. split.
  - intros (k & Hk & Hin). destruct (lookup o k) as [v|] eqn:E; [|destruct Hin].
    destruct (is_none v) eqn:En; [destruct Hin|].
    destruct Hin as [[= <- <-]|[]].
    split; [exact Hk | split; [exact E|]]. intros ->. discriminate En.
  - intros (Hk & Hv & Hne). exists key. split; [exact Hk|]. rewrite Hv.
    destruct val; simpl; try (now left). contradiction.
Qed.

End Reflection.

(** ** apply_mask with any mask *)

Section StringOrder.

Lemma ascii_compare_trans (a b c : ascii) :
  Ascii.compare a b = Lt -> Ascii.compare b c = Lt -> Ascii.compare a c = Lt.
Proof.
  unfold Ascii.compare. rewrite !N.compare_lt_iff. apply N.lt_trans.
Qed.

Lemma ascii_compare_refl (a : ascii) : Ascii.compare a a = Eq.
Proof. unfold Ascii.compare. apply N.compare_refl. Qed.

Lemma string_compare_trans (a b c : string) :
  String.compare a b = Lt -> String.compare b c = Lt -> String.compare a c = Lt.
Proof.
  revert b c. induction a as [|x a IH]; intros [|y b] [|z c]; simpl;
    try discriminate; try reflexivity.
  destruct (Ascii.compare x y) eqn:Exy; try discriminate;
    destruct (Ascii.compare y z) eqn:Eyz; try discriminate; intros H1 H2.
  - apply Ascii.compare_eq_iff in Exy, Eyz. subst.
    rewrite ascii_compare_refl. now apply IH with b.
  - apply Ascii.compare_eq_iff in Exy. subst. now rewrite Eyz.
  - apply Ascii.compare_eq_iff in Eyz. subst. now rewrite Exy.
  - now rewrite (ascii_compare_trans x y z Exy Eyz).
Qed.

Lemma string_compare_refl (a : string) : String.compare a a = Eq.
Proof.
  induction a as [|x a IH]; simpl; [reflexivity|].
  now rewrite ascii_compare_refl.
Qed.

Lemma insert_sorted_ascending (s : string) (l : list string) :
  ascending l -> ascending (Str.insert_sorted s l).
Proof.
  induction l as [|t r IH]; intros Hl; simpl; [repeat constructor|].
  destruct Hl as [Ht Hr].
  destruct (String.eqb s t) eqn:E; [now split|].
  unfold String.ltb. destruct (String.compare s t) eqn:C.
  - apply String.compare_eq_iff in C. subst. rewrite String.eqb_refl in E. discriminate.
  - split; [|now split]. constructor; [exact C|].
    eapply Forall_impl; [|exact Ht]. intros x Hx. now apply string_compare_trans with t.
  - split; [|now apply IH].
    apply Forall_forall. intros x Hx. apply In_insert_sorted in Hx as [->|Hx].
    + rewrite String.compare_antisym, C. reflexivity.
    + rewrite Forall_forall in Ht. now apply Ht.
Qed.

Lemma ascending_NoDup (l : list string) : ascending l -> NoDup l.
Proof.
  induction l as [|a t IH]; intros H; constructor.
  - destruct H as [H _]. rewrite Forall_forall in H. intros Hin.
    specialize (H a Hin). rewrite string_compare_refl in H. discriminate.
  - apply IH. apply H.
Qed.

(** [dir] lists no name twice. *)
Lemma dir_NoDup (o : Base.instance) : NoDup (Base.dir o).
Proof.
  apply ascending_NoDup. unfold Base.dir, Str.sort_unique.
  induction (map fst o ++ map fst Base.class_attrs) as [|s l IH]; simpl; [exact I|].
  now apply insert_sorted_ascending.
Qed.

End StringOrder.

Section StoreUpdates.

Import Val Base.

Lemma deref_update (hc : heap) (r : ref) (cur : instance) :
  (r < List.length hc)%nat -> deref (update hc r cur) r = Ok cur.
Proof.
  unfold deref. revert hc. induction r as [|r IH]; intros [|x hc] H; simpl in *;
    try lia; [reflexivity|]. apply IH. lia.
Qed.

Lemma update_update (hc : heap) (r : ref) (a b : instance) :
  update (update hc r a) r b = update hc r b.
Proof.
  revert hc. induction r as [|r IH]; intros [|x hc]; simpl; try reflexivity.
  now rewrite IH.
Qed.

Lemma update_other (hc : heap) (s : ref) (a : instance) (r : ref) :
  r <> s -> nth_error (update hc s a) r = nth_error hc r.
Proof.
  revert hc r. induction s as [|s IH]; intros [|x hc] [|r] H; simpl; try reflexivity;
    try contradiction. apply IH. congruence.
Qed.

End StoreUpdates.

Section AnyMask.

Import Val Base.

Variables (h : heap) (self : ref) (o : instance) (t : list Q) (mask : list bool).
Hypothesis Hself : deref h self = Ok o.
Hypothesis Hmain : lookup o "main_array_attr" = Some (VStr "time").
Hypothesis Htime : assoc o "time" = Some (VArr t).
Hypothesis Hnolist :
  forall n l, lookup o n = Some (VList l) -> List.length l <> List.length t.

Local Abbreviation masked := (Vocabulary.masked o mask).
Local Abbreviation held := (Vocabulary.held o).

Lemma time_listed (arrays : list string) :
  array_attrs o = Ok arrays -> In "time"%string arrays.
Proof.
  rewrite (array_attrs_run o t Hmain Htime). intros [= <-].
  assert (lookup o "time" = Some (VArr t)) as Hl by (unfold lookup; now rewrite Htime).
  apply filter_In. split; [now apply lookup_dir with (VArr t)|].
  rewrite Hl. cbn [iterable shape andb]. unfold shape_eqb.
  destruct (list_eq_dec Nat.eq_dec [List.length t] [List.length t]); [reflexivity | contradiction].
Qed.

Lemma arrays_NoDup (arrays : list string) : array_attrs o = Ok arrays -> NoDup arrays.
Proof.
  rewrite (array_attrs_run o t Hmain Htime). intros [= <-].
  apply NoDup_filter, dir_NoDup.
Qed.

(** With [filtered_attrs=None] the attributes masked are the array
    attributes. *)
Lemma filtered_is_arrays (arrays : list string) :
  array_attrs o = Ok arrays ->
  (if Py.str_in "time" arrays then arrays else arrays ++ ["time"%string]) = arrays.
Proof.
  intros Ha. now rewrite (str_in_In _ _ (time_listed arrays Ha)).
Qed.

Lemma write_attrs (F : value -> result value) (out : string -> value)
  (names : list string) (d : instance) :
  (forall n, In n names -> exists v, lookup o n = Some v /\ F v = Ok (out n)) ->
  exists d',
    foldM (fun h' attr =>
             v <- getattr_at h' self attr ;;
             v <- F v ;;
             setattr_at h' (List.length h) attr v)
      names (h ++ [d])
    = Ok (h ++ [d'])
    /\ (forall n, In n names -> assoc d' n = Some (out n))
    /\ (forall n, ~ In n names -> assoc d' n = assoc d n).
Proof.
  revert d. induction names as [|a names IH]; intros d Hnames.
  - exists d. split; [reflexivity|]. split; [intros n [] | reflexivity].
  - destruct (Hnames a (or_introl eq_refl)) as (v & Hv & HF).
    cbn [foldM]. unfold getattr_at at 1.
    rewrite (deref_alloc_old h d o self Hself). cbn [bind].
    unfold getattr. rewrite Hv. cbn [bind]. rewrite HF. cbn [bind].
    rewrite setattr_at_alloc. cbn [bind].
    destruct (IH (setattr d a (out a))) as (d' & Hrun & Hin & Hout).
    { intros n Hn. apply Hnames. now right. }
    exists d'. split; [exact Hrun|]. split.
    + intros n [<-|Hn]; [|now apply Hin].
      destruct (in_dec string_dec a names) as [Ha|Ha]; [now apply Hin|].
      rewrite (Hout a Ha). apply assoc_setattr_eq.
    + intros n Hn. rewrite Hout by (intros H; apply Hn; now right).
      apply assoc_setattr_neq. intros ->. apply Hn. now left.
Qed.

Hypothesis Hmask : List.length mask = List.length t.

Lemma getitem_array (n : string) :
  Base.is_array o t n ->
  exists v, lookup o n = Some v /\ getitem_mask v mask = Ok (masked n).
Proof.
  intros (a & Ha & Hlen). exists (VArr a). split; [exact Ha|].
  unfold Vocabulary.masked. rewrite Ha.
  apply getitem_same_length. congruence.
Qed.

(** X19: out of place, with any mask as long as [time], on a series
    without list-valued arrays: the store keeps every object as it was
    and gains one, whose array attributes are the source's filtered by
    the mask and whose meta attributes are the source's. *)
Theorem apply_mask_copy :
  exists new arrays metas,
    apply_mask h self mask false None = Ok (List.length h, h ++ [new])
    /\ array_attrs o = Ok arrays
    /\ meta_attrs o = Ok metas
    /\ lookup new "time" = Some (VArr (select mask t))
    /\ (forall n a, In n arrays -> lookup o n = Some (VArr a) ->
                    lookup new n = Some (VArr (select mask a)))
    /\ (forall n, In n metas -> lookup new n = lookup o n).
Proof.
  unfold apply_mask. rewrite Hself. cbn [bind].
  destruct (array_attrs o) as [arrays|] eqn:Ea;
    [|rewrite (array_attrs_run o t Hmain Htime) in Ea; discriminate].
  cbn [bind]. rewrite (filtered_is_arrays arrays Ea).
  pose proof (array_attrs_are_arrays o t Hmain Htime Hnolist arrays Ea) as Harr.
  rewrite Forall_forall in Harr.
  destruct init_default as [fresh|] eqn:Ei; [|discriminate Ei].
  cbn [bind]. unfold alloc.
  destruct (meta_attrs o) as [metas|] eqn:Em.
  2:{ unfold meta_attrs in Em. rewrite Ea in Em. discriminate Em. }
  cbn [bind].
  destruct (write_attrs (fun v => Ok v) held metas fresh) as (d1 & Hrun1 & Hin1 & _).
  { intros n Hn. destruct (meta_attrs_defined o t Hmain Htime metas Em n Hn) as (v & Hv & _).
    exists v. split; [exact Hv|]. unfold Vocabulary.held. now rewrite Hv. }
  cbn [bind] in Hrun1. rewrite Hrun1. cbn [bind].
  destruct (write_attrs (fun v => getitem_mask v mask) masked arrays d1)
    as (d2 & Hrun2 & Hin2 & Hout2).
  { intros n Hn. apply getitem_array. now apply Harr. }
  rewrite Hrun2. cbn [bind].
  exists d2, arrays, metas. split; [reflexivity|]. split; [reflexivity|].
  split; [reflexivity|].
  assert (forall n a, In n arrays -> lookup o n = Some (VArr a) ->
                      lookup d2 n = Some (VArr (select mask a))) as Hmasked.
  { intros n a Hn Ha. unfold lookup at 1. rewrite (Hin2 n Hn).
    unfold Vocabulary.masked. now rewrite Ha. }
  split; [|split; [exact Hmasked|]].
  - apply Hmasked; [now apply time_listed|]. unfold lookup. now rewrite Htime.
  - intros n Hn.
    assert (~ In n arrays) as Hna.
    { unfold meta_attrs in Em. rewrite Ea in Em. cbn [bind] in Em. injection Em as <-.
      apply filter_In in Hn as [_ Hn]. apply andb_true_iff in Hn as [Hn _].
      apply andb_true_iff in Hn as [Hn _]. apply negb_true_iff in Hn.
      intros H. apply str_in_In in H. congruence. }
    unfold lookup at 1. rewrite (Hout2 n Hna), (Hin1 n Hn). unfold Vocabulary.held.
    destruct (meta_attrs_defined o t Hmain Htime metas Em n Hn) as (v & Hv & _).
    now rewrite Hv.
Qed.

(** Masking the listed arrays of the object at [self], one after the
    other. *)
Lemma mask_in_place (names : list string) (cur : instance) :
  NoDup names ->
  (forall n, In n names ->
             exists a, assoc cur n = Some (VArr a) /\ List.length a = List.length t) ->
  exists cur',
    foldM (fun h' attr =>
             v <- getattr_at h' self attr ;;
             v <- getitem_mask v mask ;;
             setattr_at h' self attr v)
      names (update h self cur)
    = Ok (update h self cur')
    /\ (forall n a, In n names -> assoc cur n = Some (VArr a) ->
                    assoc cur' n = Some (VArr (select mask a)))
    /\ (forall n, ~ In n names -> assoc cur' n = assoc cur n).
Proof.
  pose proof (self_allocated h self o Hself) as Hlt.
  revert cur. induction names as [|a names IH]; intros cur Hnd Harr.
  - exists cur. split; [reflexivity|]. split; [intros n x [] | reflexivity].
  - inversion Hnd as [|? ? Hna Hnd']; subst.
    destruct (Harr a (or_introl eq_refl)) as (x & Hx & Hlen).
    cbn [foldM]. unfold getattr_at, setattr_at.
    rewrite deref_update by exact Hlt. cbn [bind].
    unfold getattr, lookup at 1. rewrite Hx. cbn [bind].
    rewrite getitem_same_length by congruence. cbn [bind]. rewrite update_update.
    destruct (IH (setattr cur a (VArr (select mask x))) Hnd') as (cur' & Hrun & Hin & Hout).
    { intros n Hn. rewrite assoc_setattr_neq by (intros ->; contradiction).
      apply Harr. now right. }
    exists cur'. split; [exact Hrun|]. split.
    + intros n y [<-|Hn] Hy.
      * rewrite (Hout a Hna), assoc_setattr_eq. congruence.
      * apply Hin; [exact Hn|]. rewrite assoc_setattr_neq by (intros ->; contradiction).
        exact Hy.
    + intros n Hn. rewrite Hout by (intros H; apply Hn; now right).
      apply assoc_setattr_neq. intros ->. apply Hn. now left.
Qed.

(** X20: in place, with any mask as long as [time], on a series
    without list-valued arrays: the object returned is the source
    itself; its array attributes are filtered by the mask, every other
    attribute keeps its value, and no other object of the store
    changes. *)
Theorem apply_mask_inplace :
  exists new arrays,
    apply_mask h self mask true None = Ok (self, update h self new)
    /\ array_attrs o = Ok arrays
    /\ (forall n a, In n arrays -> lookup o n = Some (VArr a) ->
                    lookup new n = Some (VArr (select mask a)))
    /\ (forall n, ~ In n arrays -> lookup new n = lookup o n)
    /\ (forall r, r <> self -> nth_error (update h self new) r = nth_error h r).
Proof.
  unfold apply_mask. rewrite Hself. cbn [bind].
  destruct (array_attrs o) as [arrays|] eqn:Ea;
    [|rewrite (array_attrs_run o t Hmain Htime) in Ea; discriminate].
  cbn [bind]. rewrite (filtered_is_arrays arrays Ea).
  pose proof (array_attrs_are_arrays o t Hmain Htime Hnolist arrays Ea) as Harr.
  rewrite Forall_forall in Harr.
  rewrite foldM_const.
  2:{ intros a Ha. now rewrite (str_in_In a arrays Ha). }
  cbn [bind].
  destruct (mask_in_place arrays o (arrays_NoDup arrays Ea)) as (new & Hrun & Hin & Hout).
  { intros n Hn. destruct (Harr n Hn) as (a & Ha & Hlen). exists a.
    split; [now apply lookup_array | exact Hlen]. }
  rewrite (update_same h self o Hself) in Hrun. rewrite Hrun. cbn [bind].
  exists new, arrays. split; [reflexivity|]. split; [reflexivity|]. split; [|split].
  - intros n a Hn Ha. unfold lookup at 1.
    now rewrite (Hin n a Hn (lookup_array o n a Ha)).
  - intros n Hn. unfold lookup. now rewrite (Hout n Hn).
  - intros r Hr. now apply update_other.
Qed.

End AnyMask.

Section WrongMask.

Import Val Base.

Variables (h : heap) (self : ref) (o : instance) (t : list Q) (mask : list bool).
Hypothesis Hself : deref h self = Ok o.
Hypothesis Hmain : lookup o "main_array_attr" = Some (VStr "time").
Hypothesis Htime : assoc o "time" = Some (VArr t).
Hypothesis Hnolist :
  forall n l, lookup o n = Some (VList l) -> List.length l <> List.length t.
Hypothesis Hsome : mask <> [].
Hypothesis Hmask : List.length mask <> List.length t.

(** X21: a mask that is not the empty list and whose length is not
    that of [time] makes [apply_mask] raise IndexError, in place and
    out of place, on a series without list-valued arrays. *)
Theorem apply_mask_wrong_length (inplace : bool) :
  apply_mask h self mask inplace None = Raise IndexError.
Proof.
  unfold apply_mask. rewrite Hself. cbn [bind].
  destruct (array_attrs o) as [arrays|] eqn:Ea;
    [|rewrite (array_attrs_run o t Hmain Htime) in Ea; discriminate].
  cbn [bind]. rewrite (filtered_is_arrays o t Hmain Htime arrays Ea).
  pose proof (array_attrs_are_arrays o t Hmain Htime Hnolist arrays Ea) as Harr.
  pose proof (time_listed o t Hmain Htime arrays Ea) as Hin.
  destruct arrays as [|a0 rest]; [destruct Hin|].
  apply Forall_inv in Harr. destruct Harr as (x & Hx & Hlen).
  assert (getitem_mask (VArr x) mask = Raise IndexError) as Hget.
  { unfold getitem_mask. destruct mask as [|b m] eqn:Em; [contradiction|].
    rewrite <- Em.
    destruct (Nat.eqb_spec (List.length mask) (List.length x)); [|reflexivity].
    congruence. }
  destruct inplace.
  - rewrite foldM_const.
    2:{ intros a Ha. now rewrite (str_in_In a (a0 :: rest) Ha). }
    cbn [bind foldM]. unfold getattr_at. rewrite Hself. cbn [bind].
    unfold getattr. rewrite Hx. cbn [bind]. rewrite Hget. reflexivity.
  - destruct init_default as [fresh|] eqn:Ei; [|discriminate Ei].
    cbn [bind]. unfold alloc.
    destruct (meta_attrs o) as [metas|] eqn:Em.
    2:{ unfold meta_attrs in Em. rewrite Ea in Em. discriminate Em. }
    cbn [bind].
    destruct (copy_attrs h self o Hself (fun v => Ok v) metas fresh []
                (meta_attrs_defined o t Hmain Htime metas Em))
      as (d1 & Hrun1 & _); [intros n []|].
    cbn [bind] in Hrun1. rewrite Hrun1. cbn [bind foldM].
    unfold getattr_at. rewrite (deref_alloc_old h d1 o self Hself). cbn [bind].
    unfold getattr. rewrite Hx. cbn [bind]. rewrite Hget. reflexivity.
Qed.

End WrongMask.

(** ** shift and change_mjdref: the copy returned *)

Section ShiftMore.

Import Val Base.

(** X22: with a GTI array present, [shift] by a number returns a new
    object and leaves the source, like every object of the store, as it
    was.  The new object has a time array and a GTI array with as many
    entries as those of the source, and every other attribute as the
    source has it. *)
Theorem shift_returns_copy (h : heap) (self : ref) (o : instance)
  (t : list Q) (g : list (Q * Q)) (s : Q) :
  deref h self = Ok o ->
  assoc o "time" = Some (VArr t) ->
  assoc o "gti" = Some (VArr2 g) ->
  exists new t' g',
    shift h self (VNum s) = Ok (List.length h, h ++ [new])
    /\ deref (h ++ [new]) self = Ok o
    /\ assoc new "time" = Some (VArr t') /\ List.length t' = List.length t
    /\ assoc new "gti" = Some (VArr2 g') /\ List.length g' = List.length g
    /\ forall n, n <> "time"%string -> n <> "gti"%string -> assoc new n = assoc o n.
Proof.
  intros Hself Ht Hg. do 3 eexists.
  split; [apply (shift_with_gti h self o t g s Hself Ht Hg)|].
  split; [now apply deref_alloc_old|].
  split; [rewrite assoc_setattr_neq by discriminate; apply assoc_setattr_eq|].
  split; [apply length_map|].
  split; [apply assoc_setattr_eq|].
  split; [apply length_map|].
  intros n Hn1 Hn2. rewrite !assoc_setattr_neq by congruence. reflexivity.
Qed.

(** X24: with a GTI array and a numeric epoch, [change_mjdref]
    returns a new object and leaves the source, like every object of
    the store, as it was.  The epoch of the new object is the one
    asked for; its time and GTI arrays have as many entries as those of
    the source, and every other attribute is as the source has it. *)
Theorem change_mjdref_effect (h : heap) (self : ref) (o : instance)
  (t : list Q) (g : list (Q * Q)) (mjdref new_mjdref : Q) :
  deref h self = Ok o ->
  assoc o "time" = Some (VArr t) ->
  assoc o "gti" = Some (VArr2 g) ->
  assoc o "mjdref" = Some (VNum mjdref) ->
  exists new t' g',
    change_mjdref h self new_mjdref = Ok (List.length h, h ++ [new])
    /\ deref (h ++ [new]) self = Ok o
    /\ assoc new "mjdref" = Some (VNum new_mjdref)
    /\ assoc new "time" = Some (VArr t') /\ List.length t' = List.length t
    /\ assoc new "gti" = Some (VArr2 g') /\ List.length g' = List.length g
    /\ forall n, n <> "time"%string -> n <> "gti"%string -> n <> "mjdref"%string ->
                 assoc new n = assoc o n.
Proof.
  intros Hself Ht Hg Hm. do 3 eexists. split.
  { unfold change_mjdref, getattr_at.
    rewrite Hself. cbn [bind]. unfold getattr, lookup. rewrite Hm. cbn [bind sub_mul].
    rewrite (shift_with_gti h self o t g _ Hself Ht Hg). cbn [bind].
    rewrite setattr_at_alloc. reflexivity. }
  split; [now apply deref_alloc_old|].
  split; [apply assoc_setattr_eq|].
  split; [rewrite !assoc_setattr_neq by discriminate; apply assoc_setattr_eq|].
  split; [apply length_map|].
  split; [rewrite assoc_setattr_neq by discriminate; apply assoc_setattr_eq|].
  split; [apply length_map|].
  intros n Hn1 Hn2 Hn3. rewrite !assoc_setattr_neq by congruence. reflexivity.
Qed.

End ShiftMore.

(** ** read and write: tables they leave alone, tables they reject *)

Section TablesMore.

Import Table.

Lemma lookup_In (ts : table) (name : string) (c : column) :
  lookup ts name = Some c -> In (name, c) ts.
Proof.
  induction ts as [|[n c'] r IH]; simpl; [discriminate|].
  destruct (String.eqb n name) eqn:E.
  - apply String.eqb_eq in E. subst. intros [= ->]. now left.
  - intros H. right. now apply IH.
Qed.

Lemma lookup_listed (ts : table) (name : string) :
  In name (colnames ts) -> lookup ts name <> None.
Proof.
  unfold colnames. induction ts as [|[n c] r IH]; simpl; [intros []|].
  destruct (String.eqb n name) eqn:E; [discriminate|].
  intros [->|H]; [rewrite String.eqb_refl in E; discriminate | now apply IH].
Qed.

Lemma write_loop_real (ts : table) (cols : list string) :
  Forall (fun nc => real_rows (snd nc)) ts ->
  (forall col, In col cols -> In col (colnames ts)) ->
  write_loop cols ts = Ok ts.
Proof.
  intros Hreal. induction cols as [|col rest IH]; intros Hin; [reflexivity|].
  cbn [write_loop]. unfold get.
  destruct (lookup ts col) as [c|] eqn:E.
  2:{ exfalso. apply (lookup_listed ts col); [apply Hin; now left | exact E]. }
  cbn [bind]. apply lookup_In in E. rewrite Forall_forall in Hreal.
  destruct (Hreal _ E) as (v & l & Hc). simpl in Hc. subst c.
  cbn [first_iscomplex]. rewrite (index_nth (v :: l) 0 0) by (simpl List.length; lia).
  cbn [bind]. apply IH. intros c Hc. apply Hin. now right.
Qed.

(** X26: writing a table of float columns with at least one row
    never raises, whatever the format, and the table handed to the
    backend, when one is, is the table as it was: no column is added,
    removed or changed. *)
Theorem write_real_table (ts : table) (fmt : option string) :
  Forall (fun nc => real_rows (snd nc)) ts ->
  exists out,
    write ts fmt = Ok out
    /\ forall fmt' ts', out = Tabular fmt' ts' -> ts' = ts.
Proof.
  intros Hreal. unfold write.
  destruct (match fmt with Some f => _ | None => false end).
  - eexists. split; [reflexivity | discriminate].
  - unfold write_columns. rewrite write_loop_real by auto.
    destruct (splits_complex _); cbn [bind]; eexists;
      (split; [reflexivity | now intros ? ? [= _ <-]]).
Qed.

(** X27: a table whose first column has no row cannot be written
    with [fmt=None]: the test of the first element raises IndexError. *)
Theorem write_empty_column (name : string) (c : column) (rest : table) :
  c = Real [] \/ c = Cplx [] ->
  write ((name, c) :: rest) None = Raise IndexError.
Proof.
  intros H. unfold write, write_columns. cbn [colnames map fst write_loop splits_complex].
  unfold get. cbn [lookup]. rewrite String.eqb_refl. cbn [bind].
  destruct H as [-> | ->]; reflexivity.
Qed.

Lemma read_loop_plain (ts : table) (cols : list string) (is_imag : option bool) :
  Forall plain_name cols -> read_loop cols is_imag ts = Ok ts.
Proof.
  intros H. revert is_imag. induction H as [|col rest [H1 H2] _ IH]; intros is_imag;
    [reflexivity|].
  cbn [read_loop]. rewrite H1, H2. cbn [orb negb]. apply IH.
Qed.

(** X28: a table none of whose column names ends in ".real" or
    ".imag" is read as it is. *)
Theorem read_plain_table (ts : table) (fmt : option string) :
  Forall (fun nc => plain_name (fst nc)) ts ->
  read ts fmt = Ok ts.
Proof.
  intros H. unfold read. destruct (splits_complex _); [|reflexivity].
  unfold read_columns. apply read_loop_plain.
  unfold colnames. now apply Forall_map.
Qed.

(** X29: when the first column of the table is a ".real" column,
    [read] with [fmt=None] raises UnboundLocalError: [is_imag] is
    tested before it was ever assigned. *)
Theorem read_real_column_first (name : string) (c : column) (rest : table) :
  Str.endswith name ".real" = true ->
  read ((name, c) :: rest) None = Raise UnboundLocalError.
Proof.
  intros H. unfold read, read_columns.
  cbn [splits_complex colnames map fst read_loop]. rewrite H. cbn [orb negb].
  unfold get. cbn [lookup]. rewrite String.eqb_refl. reflexivity.
Qed.



End TablesMore.

(** ** The further properties at sample inputs *)

Section MoreInstances.

Import Val Base.

(** A value read from an object is held by the object or its class. *)
Lemma lookup_held (o : instance) (n : string) (v : value) :
  lookup o n = Some v -> In v (map snd (o ++ class_attrs)).
Proof.
  assert (forall l, assoc l n = Some v -> In v (map snd l)) as A.
  { induction l as [|[k w] l IH]; simpl; [discriminate|].
    destruct (String.eqb k n); [intros [= ->]; now left | right; auto]. }
  unfold lookup. intros H. rewrite map_app. apply in_or_app.
  destruct (assoc o n) eqn:E; [left | right]; apply A; congruence.
Qed.

Lemma rebin_mean_of_sum_witness :
  Utils.rebin_data (Examples.floats [0; 1; 2; 3]%Z) (Examples.floats [1; 2; 3; 4]%Z)
    (F64.of_Z 2) "average"
  = Ok (Examples.floats [1; 3]%Z,
        map (fun t => F64.div t (F64.of_Z 2)) (Examples.floats [3; 7]%Z), F64.of_Z 2).
Proof.
  apply (rebin_mean_of_sum (Examples.floats [0; 1; 2; 3]%Z)
           (Examples.floats [1; 2; 3; 4]%Z) (F64.of_Z 2) "average").
  vm_compute. tauto.
Defined.

Lemma contiguous_regions_cover_witness :
  exists regions,
    Utils.contiguous_regions [false; true; true; false; true] = Ok regions
    /\ forall i, covered regions i
                 <-> nth_error [false; true; true; false; true] i = Some true.
Proof.
  apply (proj2 contiguous_regions_cover [false; true; true; false; true]).
  discriminate.
Defined.

Lemma contiguous_regions_ordered_witness :
  increasing (bounds [(1, 3); (4, 5)]%nat)
  /\ Forall (fun b => (b <= List.length [false; true; true; false; true])%nat)
       (bounds [(1, 3); (4, 5)]%nat).
Proof.
  apply (contiguous_regions_ordered [false; true; true; false; true]).
  reflexivity.
Defined.

Lemma order_list_of_arrays_reads_witness :
  reordered [2; 0]%Z (Utils.ListOf [[10; 20; 30]]) (Some (Utils.ListOf [[30; 10]])).
Proof.
  apply order_list_of_arrays_reads.
  reflexivity.
Defined.

Lemma order_list_of_arrays_identity_witness :
  Utils.order_list_of_arrays
    (Utils.DictOf [("a"%string, [1; 2]); ("b"%string, [3; 4])])
    (map Z.of_nat (seq 0 2))
  = Ok (Some (Utils.DictOf [("a"%string, [1; 2]); ("b"%string, [3; 4])])).
Proof.
  apply (order_list_of_arrays_identity
           (Utils.DictOf [("a"%string, [1; 2]); ("b"%string, [3; 4])]) 2).
  repeat constructor.
Defined.

Lemma interpret_times_keeps_epoch_witness :
  exists out_times epoch,
    interpret_times (Time (Array [57483])) 50000 = Ok (out_times, epoch)
    /\ epoch = 50000.
Proof.
  do 2 eexists. split; [reflexivity|].
  eapply (interpret_times_keeps_epoch (Time (Array [57483])) 50000).
  - left. intros H. vm_compute in H. discriminate.
  - reflexivity.
Defined.

Lemma interpret_times_empty_calendar_witness :
  interpret_times (Time (Array [])) 0 = Raise IndexError.
Proof.
  apply (proj1 (interpret_times_empty_calendar 0)).
  reflexivity.
Defined.

Lemma init_array_sizes_witness :
  exists tv n,
    getattr Examples.ts_doc "time" = Ok tv
    /\ size tv = Ok n
    /\ Forall (fun kv => List.length (snd kv) = n) [("counts"%string, [2; 3; 4])].
Proof.
  apply (init_array_sizes (Some (PyList [0; 1; 2])) [("counts"%string, [2; 3; 4])] 0 ""
           None false None None None [("mission"%string, VStr "nustar")]).
  - discriminate.
  - reflexivity.
Defined.

Lemma init_arrays_without_time_witness :
  init None [("counts"%string, [2; 3; 4])] 0 "" None false None None None []
  = Raise AttributeError.
Proof.
  apply init_arrays_without_time.
  - discriminate.
  - simpl. tauto.
Defined.

Lemma init_keeps_given_epoch_witness :
  exists o,
    init (Some (Time (Array [57483; 57484]))) [] 0 "" None false None None None []
    = Ok o
    /\ interpret_times (Time (Array [57483; 57484])) 0
       = Ok (VArr (map (fun v => (v - 57483) * 86400) [57483; 57484]), 57483)
    /\ assoc o "time"
       = Some (VArr (map (fun v => (v - 57483) * 86400) [57483; 57484]))
    /\ assoc o "mjdref" = Some (VNum 0).
Proof.
  apply (init_keeps_given_epoch [57484] 57483).
  repeat constructor.
Defined.

Lemma attrs_partition_witness :
  (forall n v,
      lookup Examples.ts_doc n = Some v ->
      Str.startswith n "_" = false -> callable v = false -> has_meta_attrs v = false ->
      (In n ["counts"; "time"]%string
       /\ ~ In n ["dt"; "ephem"; "gti"; "main_array_attr"; "mission"; "mjdref";
                  "ncounts"; "notes"; "timeref"; "timesys"]%string)
      \/ (In n ["dt"; "ephem"; "gti"; "main_array_attr"; "mission"; "mjdref";
                "ncounts"; "notes"; "timeref"; "timesys"]%string
          /\ ~ In n ["counts"; "time"]%string))
  /\ (forall n,
        In n ["dt"; "ephem"; "gti"; "main_array_attr"; "mission"; "mjdref";
              "ncounts"; "notes"; "timeref"; "timesys"]%string ->
        ~ In n ["counts"; "time"]%string
        /\ Str.startswith n "_" = false
        /\ exists v, lookup Examples.ts_doc n = Some v
                     /\ callable v = false /\ has_meta_attrs v = false).
Proof.
  apply (attrs_partition Examples.ts_doc).
  - reflexivity.
  - reflexivity.
Defined.

Lemma no_time_no_arrays_witness :
  array_attrs (Examples.built (init None [] 0 "" None false None None None [])) = Ok []
  /\ exists metas,
      meta_attrs (Examples.built (init None [] 0 "" None false None None None []))
      = Ok metas
      /\ In "time"%string metas
      /\ forall n v,
          lookup (Examples.built (init None [] 0 "" None false None None None [])) n
          = Some v ->
          Str.startswith n "_" = false -> callable v = false ->
          has_meta_attrs v = false -> In n metas.
Proof.
  apply no_time_no_arrays.
  - reflexivity.
  - reflexivity.
Defined.

Lemma get_meta_dict_entries_witness :
  exists meta_dict,
    get_meta_dict Examples.ts_doc = Ok meta_dict
    /\ forall key val,
        In (key, val) meta_dict
        <-> In key ["dt"; "ephem"; "gti"; "main_array_attr"; "mission"; "mjdref";
                    "ncounts"; "notes"; "timeref"; "timesys"]%string
            /\ lookup Examples.ts_doc key = Some val /\ val <> VNone.
Proof.
  apply get_meta_dict_entries.
  reflexivity.
Defined.

Lemma apply_mask_copy_witness :
  exists new arrays metas,
    apply_mask [Examples.ts_doc] 0%nat [true; false; true] false None
    = Ok (1%nat, [Examples.ts_doc] ++ [new])
    /\ array_attrs Examples.ts_doc = Ok arrays
    /\ meta_attrs Examples.ts_doc = Ok metas
    /\ lookup new "time" = Some (VArr (select [true; false; true] [0; 1; 2]))
    /\ (forall n a, In n arrays -> lookup Examples.ts_doc n = Some (VArr a) ->
                    lookup new n = Some (VArr (select [true; false; true] a)))
    /\ (forall n, In n metas -> lookup new n = lookup Examples.ts_doc n).
Proof.
  apply (apply_mask_copy [Examples.ts_doc] 0%nat Examples.ts_doc [0; 1; 2]
           [true; false; true]).
  - reflexivity.
  - reflexivity.
  - reflexivity.
  - intros n l H. apply lookup_held in H. vm_compute in H.
    repeat (destruct H as [H|H]; [discriminate|]). contradiction.
  - reflexivity.
Defined.

Lemma apply_mask_inplace_witness :
  exists new arrays,
    apply_mask [Examples.ts_doc] 0%nat [true; false; true] true None
    = Ok (0%nat, update [Examples.ts_doc] 0%nat new)
    /\ array_attrs Examples.ts_doc = Ok arrays
    /\ (forall n a, In n arrays -> lookup Examples.ts_doc n = Some (VArr a) ->
                    lookup new n = Some (VArr (select [true; false; true] a)))
    /\ (forall n, ~ In n arrays -> lookup new n = lookup Examples.ts_doc n)
    /\ (forall r, r <> 0%nat ->
                  nth_error (update [Examples.ts_doc] 0%nat new) r
                  = nth_error [Examples.ts_doc] r).
Proof.
  apply (apply_mask_inplace [Examples.ts_doc] 0%nat Examples.ts_doc [0; 1; 2]
           [true; false; true]).
  - reflexivity.
  - reflexivity.
  - reflexivity.
  - intros n l H. apply lookup_held in H. vm_compute in H.
    repeat (destruct H as [H|H]; [discriminate|]). contradiction.
  - reflexivity.
Defined.

Lemma apply_mask_wrong_length_witness :
  apply_mask [Examples.ts_doc] 0%nat [true; false] false None = Raise IndexError.
Proof.
  apply (apply_mask_wrong_length [Examples.ts_doc] 0%nat Examples.ts_doc [0; 1; 2]
           [true; false]).
  - reflexivity.
  - reflexivity.
  - reflexivity.
  - intros n l H. apply lookup_held in H. vm_compute in H.
    repeat (destruct H as [H|H]; [discriminate|]). contradiction.
  - discriminate.
  - discriminate.
Defined.

Lemma shift_returns_copy_witness :
  exists new t' g',
    shift [Examples.ts_gti] 0%nat (VNum 10) = Ok (1%nat, [Examples.ts_gti] ++ [new])
    /\ deref ([Examples.ts_gti] ++ [new]) 0%nat = Ok Examples.ts_gti
    /\ assoc new "time" = Some (VArr t') /\ List.length t' = 7%nat
    /\ assoc new "gti" = Some (VArr2 g') /\ List.length g' = 2%nat
    /\ forall n, n <> "time"%string -> n <> "gti"%string ->
                 assoc new n = assoc Examples.ts_gti n.
Proof.
  apply (shift_returns_copy [Examples.ts_gti] 0%nat Examples.ts_gti
           [0; 1; 2; 3; 4; 10; 11] [(0, 5); (10, 12)]).
  - reflexivity.
  - reflexivity.
  - reflexivity.
Defined.

Lemma change_mjdref_effect_witness :
  exists new t' g',
    change_mjdref [Examples.ts_gti] 0%nat 1 = Ok (1%nat, [Examples.ts_gti] ++ [new])
    /\ deref ([Examples.ts_gti] ++ [new]) 0%nat = Ok Examples.ts_gti
    /\ assoc new "mjdref" = Some (VNum 1)
    /\ assoc new "time" = Some (VArr t') /\ List.length t' = 7%nat
    /\ assoc new "gti" = Some (VArr2 g') /\ List.length g' = 2%nat
    /\ forall n, n <> "time"%string -> n <> "gti"%string -> n <> "mjdref"%string ->
                 assoc new n = assoc Examples.ts_gti n.
Proof.
  apply (change_mjdref_effect [Examples.ts_gti] 0%nat Examples.ts_gti
           [0; 1; 2; 3; 4; 10; 11] [(0, 5); (10, 12)] 0).
  - reflexivity.
  - reflexivity.
  - reflexivity.
  - reflexivity.
Defined.

Lemma write_real_table_witness :
  exists out,
    Table.write [("time"%string, Table.Real [0; 1])] None = Ok out
    /\ forall fmt' ts',
        out = Table.Tabular fmt' ts' -> ts' = [("time"%string, Table.Real [0; 1])].
Proof.
  apply write_real_table.
  constructor; [|constructor].
  exists 0, [1]. reflexivity.
Defined.

Lemma write_empty_column_witness :
  Table.write [("time"%string, Table.Real [])] None = Raise IndexError.
Proof.
  apply (write_empty_column "time" (Table.Real []) []).
  left. reflexivity.
Defined.

Lemma read_plain_table_witness :
  Table.read [("time"%string, Table.Real [0; 1])] None
  = Ok [("time"%string, Table.Real [0; 1])].
Proof.
  apply read_plain_table.
  constructor; [|constructor].
  split; reflexivity.
Defined.

Lemma read_real_column_first_witness :
  Table.read [("c.real"%string, Table.Real [1; 3])] None = Raise UnboundLocalError.
Proof.
  apply read_real_column_first.
  reflexivity.
Defined.


End MoreInstances.
